(** * TheUdaanApp: the real-time vehicle tracking pipeline

    A shallow embedding of the two pieces of the application that carry
    the tracking logic:

    - [services/api.ts]: the token helper, the header construction of
      [makeAuthenticatedRequest] and the class [BusTrackingWebSocket];
    - [components/Map.tsx]: the bounding box, [latLngToPixel],
      [getMarkerPosition], the zoom handlers, the geolocation callbacks,
      the polling interval and the effect that creates the socket wrapper;

    and of what surrounds them: the marker rendering of the map, the
    request helper, [handleAPIError] and the stored favourites of
    [services/api.ts], the configuration of [config/api.ts] with the console
    helpers of [utils/debug.ts], and the state of the application shell
    [App.tsx] with the successful paths of the login dialog.

    JavaScript numbers that hold coordinates are modelled as exact
    rationals ([Q]); counters, zoom levels and delays, which only ever
    hold integers, as [Z].  Browser objects (sockets, timers,
    [localStorage]) are explicit state. *)

From Stdlib Require Import ZArith QArith Qabs Qpower Lia Lqa String List DecimalString.
From stdpp Require Import base list strings gmap.
Import ListNotations.

Local Open Scope string_scope.
Local Open Scope list_scope.

(* ===================================================================== *)
(** ** Data model ([services/api.ts]) *)
(* ===================================================================== *)

Inductive Occupancy := low | medium | high.

Record BusLocation := mkBus {
  bus_id : string;
  routeNumber : string;
  bus_lat : Q;
  bus_lng : Q;
  direction : string;
  occupancy : Occupancy;
  nextStop : string;
  estimatedArrival : string;
  vehicleNumber : option string;
  speed : option Q;
  delay : option Q
}.

Record Arrival := mkArrival {
  arr_route : string;
  arr_direction : string;
  arr_eta : string;
  arr_occupancy : Occupancy
}.

Record Stop := mkStop {
  stop_id : string;
  stop_name : string;
  stop_lat : Q;
  stop_lng : Q;
  routes : list string;
  nextArrivals : list Arrival;
  facilities : list string
}.

Record LatLng := mkLatLng { lat : Q; lng : Q }.

Record Pixel := mkPixel { x : Q; y : Q }.

Record Dimensions := mkDim { width : Q; height : Q }.

(** The outcome of a fallible (promise-returning or throwing) call. *)
Inductive Outcome (A : Type) :=
| Resolved (a : A)
| Rejected (error : string).
Arguments Resolved {A} a.
Arguments Rejected {A} error.

(** [try { body } catch (error) { handler(error) }] *)
Definition try_catch {A : Type} (body : Outcome A) (handler : string -> A) : A :=
  match body with
  | Resolved a => a
  | Rejected e => handler e
  end.

(* ===================================================================== *)
(** ** Coordinate projector ([Map.tsx]) *)
(* ===================================================================== *)

Module Projector.
Local Open Scope Q_scope.

Record Bounds := mkBounds { minLat : Q; maxLat : Q; minLng : Q; maxLng : Q }.

Definition BOUNDS : Bounds :=
  {| minLat := 40.700; maxLat := 40.800; minLng := -74.020; maxLng := -73.940 |}.

Definition latLngToPixel (lat lng mapWidth mapHeight : Q) : Pixel :=
  let x := ((lng - minLng BOUNDS) / (maxLng BOUNDS - minLng BOUNDS)) * mapWidth in
  let y := ((maxLat BOUNDS - lat) / (maxLat BOUNDS - minLat BOUNDS)) * mapHeight in
  {| x := x; y := y |}.

(** [getMarkerPosition] closes over the component state [zoomLevel],
    [mapCenter] and [mapDimensions]; they are arguments here, and the
    pair [(lat, lng)] it is called with is the point [p].
    [Math.pow(2, zoomLevel - 10)] is [2 ^ (zoomLevel - 10)] with an integer
    exponent of either sign. *)
Definition getMarkerPosition (mapCenter : LatLng) (zoomLevel : Z)
    (mapDimensions : Dimensions) (p : LatLng) : Pixel :=
  let zoomFactor := 2 ^ (zoomLevel - 10) in
  latLngToPixel
    (lat p - (lat mapCenter - 40.7128) / zoomFactor)
    (lng p - (lng mapCenter - (-74.0060)) / zoomFactor)
    (width mapDimensions)
    (height mapDimensions).


(** The reference zoom level, at which [zoomFactor] is 1. *)
Definition referenceZoom : Z := 10.


End Projector.

(* ===================================================================== *)
(** ** API service layer ([config/api.ts], [services/api.ts]) *)
(* ===================================================================== *)

Module Api.
Local Open Scope Z_scope.

Record APIConfig := mkConfig {
  baseURL : string;
  wsURL : string;
  timeout : Z;
  enableMockMode : bool
}.

Definition DEFAULT_CONFIG : APIConfig :=
  {| baseURL := "http://localhost:3001/api";
     wsURL := "ws://localhost:3001/ws";
     timeout := 10000;
     enableMockMode := true |}.

(** What the class reads from its surroundings each time it connects:
    the (runtime-mutable) configuration object, [localStorage], and whether
    the [WebSocket] constructor accepts a URL (it throws on a malformed
    one). *)
Record Env := mkEnv {
  apiConfig : APIConfig;
  localStorage : gmap string string;
  url_accepted : string -> bool
}.

(** [localStorage.getItem('busTracker_token')]: [None] is JavaScript's
    [null]. *)
Definition getAuthToken (env : Env) : option string :=
  localStorage env !! "busTracker_token".

(** A value of type [string | null] interpolated in a template literal. *)
Definition interpolate (v : option string) : string :=
  match v with
  | Some s => s
  | None => "null"
  end.

(** Truthiness of a [string | null]: [null] and the empty string are
    falsy. *)
Definition truthy (v : option string) : bool :=
  match v with
  | Some s => negb (String.eqb s "")
  | None => false
  end.

(** The [headers] object of [makeAuthenticatedRequest], before the caller's
    own headers are spread over it:
    [{ 'Content-Type': ..., ...(token && { Authorization: `Bearer ${token}` }) }]. *)
Definition authHeaders (token : option string) : list (string * string) :=
  ("Content-Type", "application/json")
    :: (if truthy token then [("Authorization", "Bearer " +:+ interpolate token)] else []).

(** *** Messages on the live channel *)

(** An outbound message, before [JSON.stringify]. *)
Record ClientMessage := mkClientMessage {
  cm_type : string;
  cm_data : list string
}.

(** An inbound message after [JSON.parse]. The field [data] is untyped in
    the source; [data_buses] is [data] read as [BusLocation[]] and
    [data_stops] is [data] read as [Stop[]]. *)
Record ServerMessage := mkServerMessage {
  sm_type : string;
  data_buses : list BusLocation;
  data_stops : list Stop;
  sm_message : string
}.

(** What a handler of the class does to the outside: the three callbacks
    given to the constructor, and the console. *)
Inductive Effect :=
| OnBusUpdate (buses : list BusLocation)
| OnStopUpdate (stops : list Stop)
| OnError (error : string)
| ConsoleLog (text : string)
| ConsoleError (text : string).

(** *** Browser objects *)

Inductive ReadyState := CONNECTING | OPEN | CLOSING | CLOSED.

Definition ReadyState_eqb (a b : ReadyState) : bool :=
  match a, b with
  | CONNECTING, CONNECTING | OPEN, OPEN | CLOSING, CLOSING | CLOSED, CLOSED => true
  | _, _ => false
  end.

(** A [WebSocket] object: the URL it was constructed with, its
    [readyState], and what has been handed to its [send]. *)
Record WebSocket := mkWebSocket {
  url : string;
  readyState : ReadyState;
  sent : list ClientMessage
}.

Definition new_WebSocket (u : string) : WebSocket :=
  {| url := u; readyState := CONNECTING; sent := [] |}.

(** [socket.close()]: a socket that is not yet closed starts closing; the
    browser delivers its close event later. *)
Definition WebSocket_close (s : WebSocket) : WebSocket :=
  match readyState s with
  | CLOSED => s
  | _ => {| url := url s; readyState := CLOSING; sent := sent s |}
  end.

Definition WebSocket_send (m : ClientMessage) (s : WebSocket) : WebSocket :=
  {| url := url s; readyState := readyState s; sent := sent s ++ [m] |}.

Definition set_readyState (r : ReadyState) (s : WebSocket) : WebSocket :=
  {| url := url s; readyState := r; sent := sent s |}.

(** *** The class [BusTrackingWebSocket]

    An instance together with the browser objects it has created: the
    sockets (a socket is named by its position in [sockets]; [ws] holds the
    name of the current one) and the pending [setTimeout] callbacks, each
    with its delay. Every socket carries the four handlers installed by
    [connect], which close over the instance; every timer carries the
    callback of [reconnect]. *)
Record BusTrackingWebSocket := mkTransport {
  ws : option nat;
  reconnectAttempts : Z;
  sockets : list WebSocket;
  timers : list Z
}.

Definition maxReconnectAttempts : Z := 5.
Definition reconnectDelay : Z := 1000.

(** [new BusTrackingWebSocket(onBusUpdate, onStopUpdate, onError)] *)
Definition constructor : BusTrackingWebSocket :=
  {| ws := None; reconnectAttempts := 0; sockets := []; timers := [] |}.

Definition set_ws (v : option nat) (t : BusTrackingWebSocket) :=
  {| ws := v; reconnectAttempts := reconnectAttempts t;
     sockets := sockets t; timers := timers t |}.

Definition set_reconnectAttempts (n : Z) (t : BusTrackingWebSocket) :=
  {| ws := ws t; reconnectAttempts := n;
     sockets := sockets t; timers := timers t |}.

Definition set_sockets (l : list WebSocket) (t : BusTrackingWebSocket) :=
  {| ws := ws t; reconnectAttempts := reconnectAttempts t;
     sockets := l; timers := timers t |}.

Definition set_timers (l : list Z) (t : BusTrackingWebSocket) :=
  {| ws := ws t; reconnectAttempts := reconnectAttempts t;
     sockets := sockets t; timers := l |}.

Definition connect (env : Env) (t : BusTrackingWebSocket)
  : BusTrackingWebSocket * list Effect :=
  let wsUrl := wsURL (apiConfig env) in
  let token := getAuthToken env in
  let u := wsUrl +:+ "?token=" +:+ interpolate token in
  if url_accepted env u then
    (set_ws (Some (length (sockets t)))
       (set_sockets (sockets t ++ [new_WebSocket u]) t), [])
  else
    (t, [OnError "Failed to establish WebSocket connection"]).

Definition send (m : ClientMessage) (t : BusTrackingWebSocket) : BusTrackingWebSocket :=
  match ws t with
  | Some i =>
      match sockets t !! i with
      | Some s =>
          if ReadyState_eqb (readyState s) OPEN
          then set_sockets (<[i := WebSocket_send m s]> (sockets t)) t
          else t
      | None => t
      end
  | None => t
  end.

Definition subscribe : ClientMessage :=
  {| cm_type := "subscribe"; cm_data := ["buses"; "stops"] |}.

Definition onopen (t : BusTrackingWebSocket) : BusTrackingWebSocket * list Effect :=
  (send subscribe (set_reconnectAttempts 0 t), [ConsoleLog "WebSocket connected"]).

Definition handleMessage (message : ServerMessage) : list Effect :=
  if String.eqb (sm_type message) "bus_update" then [OnBusUpdate (data_buses message)]
  else if String.eqb (sm_type message) "stop_update" then [OnStopUpdate (data_stops message)]
  else if String.eqb (sm_type message) "error" then [OnError (sm_message message)]
  else [ConsoleLog "Unknown message type:"].

(** [event.data] is given by what [JSON.parse] makes of it: a message, or
    an exception. *)
Definition onmessage (data : Outcome ServerMessage) : list Effect :=
  try_catch
    (match data with
     | Resolved message => Resolved (handleMessage message)
     | Rejected e => Rejected e
     end)
    (fun _ => [ConsoleError "Failed to parse WebSocket message:"]).

Definition reconnect (t : BusTrackingWebSocket) : BusTrackingWebSocket :=
  if reconnectAttempts t <? maxReconnectAttempts then
    let t1 := set_reconnectAttempts (reconnectAttempts t + 1) t in
    set_timers (timers t1 ++ [reconnectDelay * reconnectAttempts t1]) t1
  else t.

Definition onclose (t : BusTrackingWebSocket) : BusTrackingWebSocket * list Effect :=
  (reconnect t, [ConsoleLog "WebSocket disconnected"]).

Definition onerror : list Effect :=
  [ConsoleError "WebSocket error:"; OnError "Connection error occurred"].

(** The callback given to [setTimeout] by [reconnect]. *)
Definition timer_callback (env : Env) (t : BusTrackingWebSocket)
  : BusTrackingWebSocket * list Effect :=
  let '(t', effs) := connect env t in
  (t', ConsoleLog "Attempting to reconnect..." :: effs).

Definition disconnect (t : BusTrackingWebSocket) : BusTrackingWebSocket :=
  match ws t with
  | Some i =>
      set_ws None
        (set_sockets (alter WebSocket_close i (sockets t)) t)
  | None => t
  end.

(** [s.includes(sub)] *)
Fixpoint includes (sub s : string) : bool :=
  if String.prefix sub s then true
  else match s with
       | EmptyString => false
       | String _ s' => includes sub s'
       end.

(** [handleAPIError], for an [error] that is an [Error] with the given
    message. Its 401 branch also removes the two session entries from
    [localStorage]; the storage is part of [Env], which every step below
    takes anew, so that removal needs no state here. *)
Definition handleAPIError (message : string) : string :=
  if includes "401" message then "Session expired. Please log in again."
  else if includes "timeout" message
       then "Request timed out. Please check your connection and try again."
  else if includes "Failed to fetch" message
       then "Unable to connect to server. Please check your internet connection."
  else message.

(** *** The browser's side

    The events the browser can deliver to the handlers of an instance. A
    socket opens only while connecting, receives messages only while open,
    and reports an error or closes only while not yet closed; a timer fires
    once. [deliver] is [None] when the browser cannot produce the event. *)
Inductive BrowserEvent :=
| EvOpen (i : nat)
| EvMessage (i : nat) (data : Outcome ServerMessage)
| EvError (i : nat)
| EvClose (i : nat)
| EvTimeout (k : nat).

Definition deliver (env : Env) (t : BusTrackingWebSocket) (e : BrowserEvent)
  : option (BusTrackingWebSocket * list Effect) :=
  match e with
  | EvOpen i =>
      match sockets t !! i with
      | Some s =>
          if ReadyState_eqb (readyState s) CONNECTING
          then Some (onopen (set_sockets (<[i := set_readyState OPEN s]> (sockets t)) t))
          else None
      | None => None
      end
  | EvMessage i data =>
      match sockets t !! i with
      | Some s =>
          if ReadyState_eqb (readyState s) OPEN
          then Some (t, onmessage data)
          else None
      | None => None
      end
  | EvError i =>
      match sockets t !! i with
      | Some s =>
          if ReadyState_eqb (readyState s) CLOSED
          then None
          else Some (t, onerror)
      | None => None
      end
  | EvClose i =>
      match sockets t !! i with
      | Some s =>
          if ReadyState_eqb (readyState s) CLOSED
          then None
          else Some (onclose (set_sockets (<[i := set_readyState CLOSED s]> (sockets t)) t))
      | None => None
      end
  | EvTimeout k =>
      match timers t !! k with
      | Some _ => Some (timer_callback env (set_timers (delete k (timers t)) t))
      | None => None
      end
  end.

(** What can happen to an instance: its owner calls one of the two public
    methods, or the browser delivers an event. *)
Inductive Action :=
| Call_connect
| Call_disconnect
| Browser (e : BrowserEvent).

Definition step (env : Env) (t : BusTrackingWebSocket) (a : Action)
  : option (BusTrackingWebSocket * list Effect) :=
  match a with
  | Call_connect => Some (connect env t)
  | Call_disconnect => Some (disconnect t, [])
  | Browser e => deliver env t e
  end.

(** A sequence of actions, with the effects in the order they happen. *)
Fixpoint run (env : Env) (l : list Action) (t : BusTrackingWebSocket)
  : option (BusTrackingWebSocket * list Effect) :=
  match l with
  | [] => Some (t, [])
  | a :: l' =>
      match step env t a with
      | Some (t1, effs1) =>
          match run env l' t1 with
          | Some (t2, effs2) => Some (t2, effs1 ++ effs2)
          | None => None
          end
      | None => None
      end
  end.

(** The errors surfaced to the caller through [onError]. *)
Definition surfaced_errors (effs : list Effect) : list string :=
  omap (fun e => match e with OnError m => Some m | _ => None end) effs.

(** An environment: the default configuration, a given [localStorage], and
    a [WebSocket] constructor that accepts the URL. *)
Definition env_with (storage : gmap string string) : Env :=
  {| apiConfig := DEFAULT_CONFIG; localStorage := storage; url_accepted := fun _ => true |}.

(** The delays of the timers pending after a sequence of actions. *)
Definition timers_after (env : Env) (l : list Action) (t : BusTrackingWebSocket)
  : option (list Z) :=
  match run env l t with
  | Some (t', _) => Some (timers t')
  | None => None
  end.

(** *** Scenarios

    One failed cycle: socket [i] closes, then the timer that the closure
    scheduled fires and [connect] creates socket [i + 1]. *)
Definition failed_cycle (i : nat) : list Action :=
  [Browser (EvClose i); Browser (EvTimeout 0)].

(** The caller connects, five connections in a row close before they open,
    and the sixth closes too. *)
Definition exhausting_run : list Action :=
  Call_connect
    :: failed_cycle 0 ++ failed_cycle 1 ++ failed_cycle 2
    ++ failed_cycle 3 ++ failed_cycle 4 ++ [Browser (EvClose 5)].

(** The caller connects, the socket closes, and the caller disconnects
    while the reconnection timer is pending. *)
Definition drop_then_disconnect : list Action :=
  [Call_connect; Browser (EvClose 0); Call_disconnect].

(** The caller connects, the socket opens, and the caller disconnects; the
    browser then reports the closure the caller asked for. *)
Definition open_then_disconnect : list Action :=
  [Call_connect; Browser (EvOpen 0); Call_disconnect; Browser (EvClose 0)].

End Api.

(* ===================================================================== *)
(** ** The map component ([components/Map.tsx]) *)
(* ===================================================================== *)

Module MapComponent.
Import Api.

Inductive Toast :=
| toast_error (text : string)
| toast_success (text : string)
| toast_info (text : string).

(** [GeolocationPositionError]: its [code], and the three constants the
    handler compares it with. *)
Record GeolocationPositionError := mkGeoError {
  code : Z;
  geo_message : string
}.

Definition PERMISSION_DENIED : Z := 1.
Definition POSITION_UNAVAILABLE : Z := 2.
Definition TIMEOUT : Z := 3.

(** The argument of [busAPI.getLiveBuses]. *)
Record Box := mkBox { north : Q; south : Q; east : Q; west : Q }.

(** The component's state: the [useState] cells, the resources held by
    the socket effect, and what the component has written to the toaster
    and the console.

    [instances] holds every [BusTrackingWebSocket] object the effect has
    created, oldest first; the last one belongs to the current run of the
    effect, and [wsConnection] names it. [updateInterval] is the live
    [setInterval] handle, with the [mapCenter] its callback closed over;
    [None] after [clearInterval]. *)
Record MapState := mkMap {
  buses : list BusLocation;
  stops : list Stop;
  userLocation : option LatLng;
  mapCenter : LatLng;
  zoomLevel : Z;
  mapDimensions : Dimensions;
  locationLoading : bool;
  dataLoading : bool;
  wsConnection : option nat;
  instances : list BusTrackingWebSocket;
  updateInterval : option LatLng;
  toasts : list Toast;
  console : list string
}.

Definition MIN_ZOOM : Z := 8.
Definition MAX_ZOOM : Z := 18.
Definition defaultCenter : LatLng := {| lat := 40.7128; lng := -74.0060 |}.

(** The state of the first render, before any effect has run. *)
Definition initial : MapState :=
  {| buses := []; stops := []; userLocation := None;
     mapCenter := defaultCenter; zoomLevel := 13;
     mapDimensions := {| width := 800; height := 600 |};
     locationLoading := false; dataLoading := true;
     wsConnection := None; instances := []; updateInterval := None;
     toasts := []; console := [] |}.

Definition setBuses (v : list BusLocation) (m : MapState) : MapState :=
  mkMap v (stops m) (userLocation m) (mapCenter m) (zoomLevel m) (mapDimensions m)
    (locationLoading m) (dataLoading m) (wsConnection m) (instances m)
    (updateInterval m) (toasts m) (console m).

Definition setStops (v : list Stop) (m : MapState) : MapState :=
  mkMap (buses m) v (userLocation m) (mapCenter m) (zoomLevel m) (mapDimensions m)
    (locationLoading m) (dataLoading m) (wsConnection m) (instances m)
    (updateInterval m) (toasts m) (console m).

Definition setUserLocation (v : option LatLng) (m : MapState) : MapState :=
  mkMap (buses m) (stops m) v (mapCenter m) (zoomLevel m) (mapDimensions m)
    (locationLoading m) (dataLoading m) (wsConnection m) (instances m)
    (updateInterval m) (toasts m) (console m).

Definition set_mapCenter (v : LatLng) (m : MapState) : MapState :=
  mkMap (buses m) (stops m) (userLocation m) v (zoomLevel m) (mapDimensions m)
    (locationLoading m) (dataLoading m) (wsConnection m) (instances m)
    (updateInterval m) (toasts m) (console m).

(** [setZoomLevel(prev => f(prev))] *)
Definition setZoomLevel (f : Z -> Z) (m : MapState) : MapState :=
  mkMap (buses m) (stops m) (userLocation m) (mapCenter m) (f (zoomLevel m))
    (mapDimensions m) (locationLoading m) (dataLoading m) (wsConnection m)
    (instances m) (updateInterval m) (toasts m) (console m).

Definition setMapDimensions (v : Dimensions) (m : MapState) : MapState :=
  mkMap (buses m) (stops m) (userLocation m) (mapCenter m) (zoomLevel m) v
    (locationLoading m) (dataLoading m) (wsConnection m) (instances m)
    (updateInterval m) (toasts m) (console m).

Definition setLocationLoading (v : bool) (m : MapState) : MapState :=
  mkMap (buses m) (stops m) (userLocation m) (mapCenter m) (zoomLevel m)
    (mapDimensions m) v (dataLoading m) (wsConnection m) (instances m)
    (updateInterval m) (toasts m) (console m).

Definition setDataLoading (v : bool) (m : MapState) : MapState :=
  mkMap (buses m) (stops m) (userLocation m) (mapCenter m) (zoomLevel m)
    (mapDimensions m) (locationLoading m) v (wsConnection m) (instances m)
    (updateInterval m) (toasts m) (console m).

Definition setWsConnection (v : option nat) (m : MapState) : MapState :=
  mkMap (buses m) (stops m) (userLocation m) (mapCenter m) (zoomLevel m)
    (mapDimensions m) (locationLoading m) (dataLoading m) v (instances m)
    (updateInterval m) (toasts m) (console m).

Definition set_instances (v : list BusTrackingWebSocket) (m : MapState) : MapState :=
  mkMap (buses m) (stops m) (userLocation m) (mapCenter m) (zoomLevel m)
    (mapDimensions m) (locationLoading m) (dataLoading m) (wsConnection m) v
    (updateInterval m) (toasts m) (console m).

Definition set_updateInterval (v : option LatLng) (m : MapState) : MapState :=
  mkMap (buses m) (stops m) (userLocation m) (mapCenter m) (zoomLevel m)
    (mapDimensions m) (locationLoading m) (dataLoading m) (wsConnection m)
    (instances m) v (toasts m) (console m).

Definition toast (t : Toast) (m : MapState) : MapState :=
  mkMap (buses m) (stops m) (userLocation m) (mapCenter m) (zoomLevel m)
    (mapDimensions m) (locationLoading m) (dataLoading m) (wsConnection m)
    (instances m) (updateInterval m) (toasts m ++ [t]) (console m).

Definition console_write (text : string) (m : MapState) : MapState :=
  mkMap (buses m) (stops m) (userLocation m) (mapCenter m) (zoomLevel m)
    (mapDimensions m) (locationLoading m) (dataLoading m) (wsConnection m)
    (instances m) (updateInterval m) (toasts m) (console m ++ [text]).

(** *** Fleet state: the two merge entry points

    The store is the pair of state cells [buses] and [stops]; the only
    writers are [setBuses] and [setStops]. *)
Definition mergeVehicles (batch : list BusLocation) : MapState -> MapState :=
  setBuses batch.

Definition mergeStops (batch : list Stop) : MapState -> MapState :=
  setStops batch.

(** The three callbacks the effect gives to the constructor, as what an
    effect of the class does to the component. *)
Definition callback (e : Effect) (m : MapState) : MapState :=
  match e with
  | OnBusUpdate updatedBuses => mergeVehicles updatedBuses m
  | OnStopUpdate updatedStops => mergeStops updatedStops m
  | OnError _ => console_write "WebSocket error:" m
  | ConsoleLog text => console_write text m
  | ConsoleError text => console_write text m
  end.

Definition callbacks (effs : list Effect) (m : MapState) : MapState :=
  fold_left (fun acc e => callback e acc) effs m.

(** *** The socket effect, [useEffect(..., [mapCenter])] *)

Definition effect_setup (m : MapState) : MapState :=
  let m1 := set_instances (instances m ++ [constructor]) m in
  let m2 := set_updateInterval (Some (mapCenter m)) m1 in
  setWsConnection (Some (length (instances m))) m2.

(** The cleanup: [clearInterval(updateInterval); ws.disconnect()], where
    [ws] is the instance the same run of the effect created. *)
Definition effect_cleanup (m : MapState) : MapState :=
  let m1 := set_updateInterval None m in
  set_instances (alter disconnect (pred (length (instances m))) (instances m)) m1.

(** [setMapCenter(location)] with a fresh object: the dependency changes,
    so the effect is cleaned up and set up again. *)
Definition setMapCenter (v : LatLng) (m : MapState) : MapState :=
  effect_setup (set_mapCenter v (effect_cleanup m)).

(** *** The polling interval *)

Definition pollBounds (c : LatLng) : Box :=
  {| north := lat c + 0.05; south := lat c - 0.05;
     east := lng c + 0.05; west := lng c - 0.05 |}%Q.

(** The body of the interval callback. [getLiveBuses] is the data source
    as it answers this call. The result says whether the callback itself
    completes or throws. The tick and the settling of its fetch are one
    step: the callback stores with [setBuses(value)], not with an update of
    the previous value, so what happens in between does not change what it
    stores. *)
Definition pollTick (getLiveBuses : Box -> Outcome (list BusLocation))
    (c : LatLng) (m : MapState) : Outcome MapState :=
  Resolved
    (try_catch
       (let bounds := pollBounds c in
        match getLiveBuses bounds with
        | Resolved updatedBuses => Resolved (mergeVehicles updatedBuses m)
        | Rejected error => Rejected error
        end)
       (fun error => console_write "Failed to update bus locations:" m)).

(** *** [loadInitialData], once [Promise.all] has settled *)
Definition loadInitialData (data : Outcome (list BusLocation * list Stop))
    (m : MapState) : MapState :=
  let m1 := setDataLoading true m in
  let m2 :=
    try_catch
      (match data with
       | Resolved (busesData, stopsData) =>
           Resolved (mergeStops stopsData (mergeVehicles busesData m1))
       | Rejected error => Rejected error
       end)
      (fun error =>
         let errorMessage := handleAPIError error in
         console_write "Map data loading error:"
           (toast (toast_error ("Failed to load map data: " +:+ errorMessage)) m1)) in
  setDataLoading false m2.

(** *** Geolocation *)

(** [getCurrentLocation] up to the request: [supported] is whether
    [navigator.geolocation] exists. *)
Definition getCurrentLocation (supported : bool) (m : MapState) : MapState :=
  if supported then setLocationLoading true m
  else toast (toast_error "Geolocation is not supported by this browser") m.

Definition geolocation_success (position : LatLng) (m : MapState) : MapState :=
  let location := position in
  let m1 := setUserLocation (Some location) m in
  let m2 := setMapCenter location m1 in
  let m3 := setLocationLoading false m2 in
  toast (toast_success "Location found successfully") m3.

(** The [switch (error.code)] of the error callback. *)
Definition errorMessage (error : GeolocationPositionError) : string :=
  if (code error =? PERMISSION_DENIED)%Z then "Location access denied by user"
  else if (code error =? POSITION_UNAVAILABLE)%Z then "Location information unavailable"
  else if (code error =? TIMEOUT)%Z then "Location request timed out"
  else "An unknown error occurred while retrieving location".

Definition fallbackLocation : LatLng := {| lat := 40.7128; lng := -74.0060 |}.

Definition geolocation_error (error : GeolocationPositionError) (m : MapState) : MapState :=
  let m1 := setLocationLoading false m in
  let m2 := console_write "Geolocation error:" m1 in
  let m3 := toast (toast_error (errorMessage error)) m2 in
  let m4 := setMapCenter fallbackLocation m3 in
  toast (toast_info "Using default location: New York City") m4.

(** *** Zoom *)

Definition handleZoomIn : MapState -> MapState :=
  setZoomLevel (fun prev => Z.min (prev + 1) 18).

Definition handleZoomOut : MapState -> MapState :=
  setZoomLevel (fun prev => Z.max (prev - 1) 8).

(** *** Resize: [updateDimensions], given the element if it exists *)
Definition updateDimensions (mapElement : option Dimensions) (m : MapState) : MapState :=
  match mapElement with
  | Some d => setMapDimensions {| width := width d; height := height d |} m
  | None => m
  end.

(** *** The component as a transition system

    What can happen to a mounted component. [WsEvent k e] is the browser
    delivering [e] to the [k]-th socket wrapper the component created. *)
Inductive Event :=
| Resize (mapElement : option Dimensions)
| InitialData (data : Outcome (list BusLocation * list Stop))
| PollTick (getLiveBuses : Box -> Outcome (list BusLocation))
| WsEvent (k : nat) (e : BrowserEvent)
| LocateClick (supported : bool)
| GeoSuccess (position : LatLng)
| GeoError (error : GeolocationPositionError)
| ZoomInClick
| ZoomOutClick
| Unmount.

(** A callback that throws leaves the state as it was. *)
Definition settle (r : Outcome MapState) (m : MapState) : MapState :=
  match r with
  | Resolved m' => m'
  | Rejected _ => m
  end.

Definition step (env : Env) (m : MapState) (ev : Event) : option MapState :=
  match ev with
  | Resize mapElement => Some (updateDimensions mapElement m)
  | InitialData data => Some (loadInitialData data m)
  | PollTick getLiveBuses =>
      match updateInterval m with
      | Some c => Some (settle (pollTick getLiveBuses c m) m)
      | None => None
      end
  | WsEvent k e =>
      match instances m !! k with
      | Some t =>
          match deliver env t e with
          | Some (t', effs) =>
              Some (callbacks effs (set_instances (<[k := t']> (instances m)) m))
          | None => None
          end
      | None => None
      end
  | LocateClick supported => Some (getCurrentLocation supported m)
  | GeoSuccess position => Some (geolocation_success position m)
  | GeoError error => Some (geolocation_error error m)
  | ZoomInClick => Some (handleZoomIn m)
  | ZoomOutClick => Some (handleZoomOut m)
  | Unmount => Some (effect_cleanup m)
  end.

(** Mounting runs the effects on the first render's state: the socket
    effect is set up (the dimension and data effects show as [Resize] and
    [InitialData] events). *)
Definition mounted : MapState := effect_setup initial.

(** A run of the component: each event happens in the environment of its
    moment. *)
Fixpoint run (l : list (Env * Event)) (m : MapState) : option MapState :=
  match l with
  | [] => Some m
  | (env, ev) :: l' =>
      match step env m ev with
      | Some m' => run l' m'
      | None => None
      end
  end.

(** The zoom handlers alone, as a sequence of clicks. *)
Inductive ZoomClick := ZoomIn | ZoomOut.

Definition zoom_click (c : ZoomClick) : MapState -> MapState :=
  match c with
  | ZoomIn => handleZoomIn
  | ZoomOut => handleZoomOut
  end.

Definition zoom_clicks (l : list ZoomClick) (m : MapState) : MapState :=
  fold_left (fun acc c => zoom_click c acc) l m.

(** *** Scenarios *)

(** A vehicle with the given id, on route 42 at the default centre. *)
Definition sample_bus (id : string) : BusLocation :=
  {| bus_id := id; routeNumber := "42";
     bus_lat := 40.7128; bus_lng := -74.0060;
     direction := "Downtown"; occupancy := medium;
     nextStop := "Times Square"; estimatedArrival := "3 min";
     vehicleNumber := None; speed := None; delay := None |}.

(** Two consecutive batches: the second keeps vehicles 1 and 2, brings
    vehicle 4 and no longer has vehicle 3. *)
Definition batch1 : list BusLocation := [sample_bus "1"; sample_bus "2"; sample_bus "3"].
Definition batch2 : list BusLocation := [sample_bus "1"; sample_bus "2"; sample_bus "4"].

(** A data source whose fetch rejects, and one that answers a batch. *)
Definition fetch_rejects : Box -> Outcome (list BusLocation) :=
  fun _ => Rejected "Failed to fetch".

Definition fetch_answers (batch : list BusLocation) : Box -> Outcome (list BusLocation) :=
  fun _ => Resolved batch.

End MapComponent.

(* ===================================================================== *)
(** ** Marker rendering ([components/Map.tsx], the JSX of the map) *)
(* ===================================================================== *)

Module MapRender.
Import Projector MapComponent.
Local Open Scope Q_scope.

(** [a < b] and [a > b] on numbers. *)
Definition lt (a b : Q) : bool := negb (Qle_bool b a).
Definition gt (a b : Q) : bool := lt b a.

(** [getMarkerPosition] as the render calls it, with the component's
    current centre, zoom level and dimensions. *)
Definition markerPosition (m : MapState) (p : LatLng) : Pixel :=
  getMarkerPosition (mapCenter m) (zoomLevel m) (mapDimensions m) p.

(** The test in front of every bus, stop and fixed marker:
    [position.x < 0 || position.x > width || position.y < 0 || position.y > height],
    in which case the marker is [null]. The test compares the numbers of the
    position it is given, as the code's does: a finite double is a rational,
    and two doubles compare as the rationals they are. What differs is the
    position that reaches the test: it is computed here in exact rationals,
    where the code rounds after every operation, so for a point whose exact
    position is on a border of the surface, or within rounding distance of
    one, the code's position can fall on the other side. Nothing below says
    which points of the map are drawn; what is stated holds of every marker
    that passes the test, or does not depend on where the border is. *)
Definition culled (mapDimensions : Dimensions) (position : Pixel) : bool :=
  lt (x position) 0 || gt (x position) (width mapDimensions)
  || lt (y position) 0 || gt (y position) (height mapDimensions).

(** [buses.map(bus => ...)] without the [null]s: the buses that get a
    marker, each with the place it is drawn at. *)
Definition busMarkers (m : MapState) : list (BusLocation * Pixel) :=
  omap (fun bus =>
          let position := markerPosition m {| lat := bus_lat bus; lng := bus_lng bus |} in
          if culled (mapDimensions m) position then None else Some (bus, position))
       (buses m).

Definition stopMarkers (m : MapState) : list (Stop * Pixel) :=
  omap (fun stop =>
          let position := markerPosition m {| lat := stop_lat stop; lng := stop_lng stop |} in
          if culled (mapDimensions m) position then None else Some (stop, position))
       (stops m).

(** The user-location marker is drawn without the test. *)
Definition userMarker (m : MapState) : option Pixel :=
  match userLocation m with
  | Some u => Some (markerPosition m u)
  | None => None
  end.

(** The coordinate the base projection is applied to: the point, moved
    against the viewport centre's offset from (40.7128, -74.0060). *)
Definition shifted (mapCenter : LatLng) (zoomLevel : Z) (p : LatLng) : LatLng :=
  {| lat := lat p - (lat mapCenter - 40.7128) / 2 ^ (zoomLevel - 10);
     lng := lng p - (lng mapCenter - (-74.0060)) / 2 ^ (zoomLevel - 10) |}.

End MapRender.

(* ===================================================================== *)
(** ** Runs of the map component, counted *)
(* ===================================================================== *)

Module MapTrace.
Import Api MapComponent.

(** An event is a geolocation result: one of the two callbacks given to
    [getCurrentPosition] runs, and both call [setMapCenter]. *)
Definition is_geolocation_result (ev : Event) : bool :=
  match ev with
  | GeoSuccess _ | GeoError _ => true
  | _ => false
  end.

Definition geolocation_results (l : list (Env * Event)) : nat :=
  length (filter (fun e => is_geolocation_result e.2 = true) l).

(** What holds of the resources of the socket effect in a state reached after [n]
    geolocation results: one instance per run of the effect, the state
    cell naming the newest, and the live interval closed over the current
    centre. *)
Definition resources_ok (n : nat) (m : MapState) : Prop :=
  length (instances m) = S n /\
  wsConnection m = Some n /\
  (updateInterval m = None \/ updateInterval m = Some (mapCenter m)).

End MapTrace.

(* ===================================================================== *)
(** ** Runs of the socket wrapper, counted *)
(* ===================================================================== *)

Module ApiTrace.
Import Api.

(** The URL [connect] hands to the [WebSocket] constructor. *)
Definition connectURL (env : Env) : string :=
  wsURL (apiConfig env) +:+ "?token=" +:+ interpolate (getAuthToken env).

(** How often the owner calls [connect] in a sequence of actions. *)
Definition is_connect (a : Action) : bool :=
  match a with
  | Call_connect => true
  | _ => false
  end.

Definition connect_calls (l : list Action) : nat :=
  length (filter (fun a => is_connect a = true) l).

(** No socket opens in a sequence of actions. *)
Definition is_open (a : Action) : bool :=
  match a with
  | Browser (EvOpen _) => true
  | _ => false
  end.

Definition no_open (l : list Action) : Prop :=
  Forall (fun a => is_open a = false) l.


(** What holds of the sockets of an instance however it is used in a
    fixed environment: every socket was constructed with [connectURL]; a
    socket still connecting has been handed nothing; and nothing but the
    subscription has ever been handed to any socket. *)
Definition socket_ok (env : Env) (s : WebSocket) : Prop :=
  url s = connectURL env /\
  (readyState s = CONNECTING -> sent s = []) /\
  Forall (fun m => m = subscribe) (sent s).

(** The current socket, if there is one, is the one created last. *)
Definition current_is_newest (t : BusTrackingWebSocket) : Prop :=
  ws t = None \/ (sockets t <> [] /\ ws t = Some (pred (length (sockets t)))).

Definition sockets_ok (env : Env) (t : BusTrackingWebSocket) : Prop :=
  Forall (socket_ok env) (sockets t) /\ current_is_newest t.

(** A pending delay is one of 1000, 2000, 3000, 4000, 5000. *)
Definition backoff_delay (d : Z) : Prop :=
  exists n : Z, (1 <= n <= maxReconnectAttempts)%Z /\ d = (reconnectDelay * n)%Z.

End ApiTrace.

(* ===================================================================== *)
(** ** Requests, errors and stored preferences ([services/api.ts]) *)
(* ===================================================================== *)

Module Services.
Import Api.

(** A value that is thrown, or that a promise rejects with: whether it is
    an [Error] ([error instanceof Error]), its [name] and its [message]. *)
Record Exception := mkException {
  is_Error : bool;
  ex_name : string;
  ex_message : string
}.

(** [new Error(message)] *)
Definition new_Error (message : string) : Exception :=
  {| is_Error := true; ex_name := "Error"; ex_message := message |}.

(** How an asynchronous call settles. *)
Inductive Settled (A : Type) :=
| Fulfilled (a : A)
| Threw (e : Exception).
Arguments Fulfilled {A} a.
Arguments Threw {A} e.

(** What the request helper reads of a [Response]. *)
Record Response := mkResponse {
  ok : bool;
  status : nat;
  statusText : string
}.

(** A number interpolated in a template literal, for a natural number. *)
Definition number_toString (n : nat) : string :=
  NilZero.string_of_uint (Nat.to_uint n).


(** [makeAuthenticatedRequest], given how its [fetch] settles (an aborted
    fetch rejects with an error named [AbortError]). *)
Definition makeAuthenticatedRequest (fetched : Settled Response) : Settled Response :=
  let body :=
    match fetched with
    | Fulfilled response =>
        if negb (ok response)
        then Threw (new_Error ("API Error: " +:+ number_toString (status response)
                                 +:+ " " +:+ statusText response))
        else Fulfilled response
    | Threw e => Threw e
    end in
  match body with
  | Fulfilled response => Fulfilled response
  | Threw error =>
      if is_Error error && String.eqb (ex_name error) "AbortError"
      then Threw (new_Error "Request timeout")
      else Threw error
  end.

(** [handleAPIError]: the text it returns, and whether it has removed the
    two session entries from [localStorage]. *)
Definition handleAPIError_full (error : Exception) : string * bool :=
  if is_Error error then
    if includes "401" (ex_message error)
    then ("Session expired. Please log in again.", true)
    else if includes "timeout" (ex_message error)
    then ("Request timed out. Please check your connection and try again.", false)
    else if includes "Failed to fetch" (ex_message error)
    then ("Unable to connect to server. Please check your internet connection.", false)
    else (ex_message error, false)
  else ("An unexpected error occurred.", false).

(** [localStorage.removeItem('busTracker_token'); localStorage.removeItem('busTracker_user')] *)
Definition remove_session (storage : gmap string string) : gmap string string :=
  delete "busTracker_user" (delete "busTracker_token" storage).

(** [handleAPIError] on a given [localStorage]. *)
Definition handleAPIError_on (error : Exception) (storage : gmap string string)
  : string * gmap string string :=
  let '(text, removed) := handleAPIError_full error in
  (text, if removed then remove_session storage else storage).

(** *** The stored user *)

Record Preferences := mkPreferences {
  favoriteRoutes : list string;
  notifications : bool
}.

Record User := mkUser {
  user_id : string;
  email : string;
  user_name : string;
  preferences : Preferences
}.

(** [Partial<User['preferences']>]: those of the two properties that are
    there. *)
Record PartialPreferences := mkPartialPreferences {
  pp_favoriteRoutes : option (list string);
  pp_notifications : option bool
}.

(** A value that [JSON.parse] can return and that is not, or is not known
    to be, a user: [null]; a number, boolean or string, of which only its
    truthiness matters; or an object (an array counts as one), given by the
    properties the code reads: its [name] if it has one, and its
    [preferences] if it has them, with those of [favoriteRoutes] and
    [notifications] that are there. Properties that are there have their
    declared types. *)
Inductive NonUser :=
| JSON_null
| primitive (truthy : bool)
| object (name : option string) (prefs : option PartialPreferences).

(** The entry [busTracker_user] as [JSON.parse] sees it: absent (or the
    empty text, which is falsy as well); a text on which [JSON.parse] throws
    an error with the given message; the JSON text of a user; or a text
    that parses to another value, together with the message the engine
    gives the [TypeError] it throws when the named property of [undefined]
    or [null] is read or called. *)
Inductive StoredUser :=
| NoUser
| Unparseable (message : string)
| UserData (u : User)
| OtherValue (v : NonUser) (typeError : string -> string).

(** [list.includes(x)] on strings *)
Definition Array_includes (x : string) (l : list string) : bool :=
  existsb (String.eqb x) l.

Definition set_favoriteRoutes (l : list string) (u : User) : User :=
  {| user_id := user_id u; email := email u; user_name := user_name u;
     preferences := {| favoriteRoutes := l;
                       notifications := notifications (preferences u) |} |}.

(** [JSON.parse] throws a [SyntaxError], which is an [Error]. *)
Definition SyntaxError (message : string) : Exception :=
  {| is_Error := true; ex_name := "SyntaxError"; ex_message := message |}.

Definition TypeError (message : string) : Exception :=
  {| is_Error := true; ex_name := "TypeError"; ex_message := message |}.

(** [user.preferences.favoriteRoutes] on a value that is not a user: the
    list; [inl None] for [undefined] (the preferences are there, the list is
    not); or the property whose read throws: [preferences] of [null], or
    [favoriteRoutes] of [undefined]. *)
Definition read_favoriteRoutes (v : NonUser) : option (list string) + string :=
  match v with
  | object _ (Some pp) => inl (pp_favoriteRoutes pp)
  | object _ None => inr "favoriteRoutes"
  | primitive _ => inr "favoriteRoutes"
  | JSON_null => inr "preferences"
  end.

Definition with_favoriteRoutes (l : list string) (v : NonUser) : NonUser :=
  match v with
  | object nm (Some pp) =>
      object nm (Some {| pp_favoriteRoutes := Some l;
                         pp_notifications := pp_notifications pp |})
  | _ => v
  end.

(** [userAPI.addFavorite(id, type)], as a function of the stored entry. *)
Definition addFavorite (id : string) (stored : StoredUser) : Settled StoredUser :=
  match stored with
  | NoUser => Fulfilled NoUser
  | Unparseable message => Threw (SyntaxError message)
  | UserData user =>
      let favorites := favoriteRoutes (preferences user) in
      if negb (Array_includes id favorites)
      then Fulfilled (UserData (set_favoriteRoutes (favorites ++ [id]) user))
      else Fulfilled stored
  | OtherValue v typeError =>
      match read_favoriteRoutes v with
      | inl (Some favorites) =>
          if negb (Array_includes id favorites)
          then Fulfilled (OtherValue (with_favoriteRoutes (favorites ++ [id]) v) typeError)
          else Fulfilled stored
      | inl None => Threw (TypeError (typeError "includes"))
      | inr property => Threw (TypeError (typeError property))
      end
  end.

(** [userAPI.removeFavorite(id)] *)
Definition removeFavorite (id : string) (stored : StoredUser) : Settled StoredUser :=
  match stored with
  | NoUser => Fulfilled NoUser
  | Unparseable message => Threw (SyntaxError message)
  | UserData user =>
      Fulfilled
        (UserData
           (set_favoriteRoutes
              (List.filter (fun fav => negb (String.eqb fav id))
                 (favoriteRoutes (preferences user)))
              user))
  | OtherValue v typeError =>
      match read_favoriteRoutes v with
      | inl (Some favorites) =>
          Fulfilled
            (OtherValue
               (with_favoriteRoutes
                  (List.filter (fun fav => negb (String.eqb fav id)) favorites) v)
               typeError)
      | inl None => Threw (TypeError (typeError "filter"))
      | inr property => Threw (TypeError (typeError property))
      end
  end.

(** [{ ...old, ...preferences }] on preferences that may be partial. *)
Definition merge_preferences (old new : PartialPreferences) : PartialPreferences :=
  {| pp_favoriteRoutes :=
       match pp_favoriteRoutes new with
       | Some l => Some l
       | None => pp_favoriteRoutes old
       end;
     pp_notifications :=
       match pp_notifications new with
       | Some b => Some b
       | None => pp_notifications old
       end |}.

(** [userAPI.updatePreferences(preferences)]: the entry it leaves, whose
    content is also what it returns, or what it throws. *)
Definition updatePreferences (prefs : PartialPreferences) (stored : StoredUser)
  : Settled StoredUser :=
  match stored with
  | NoUser => Threw (new_Error "User not found")
  | Unparseable message => Threw (SyntaxError message)
  | UserData user =>
      let updatedUser :=
        {| user_id := user_id user; email := email user; user_name := user_name user;
           preferences :=
             {| favoriteRoutes :=
                  default (favoriteRoutes (preferences user)) (pp_favoriteRoutes prefs);
                notifications :=
                  default (notifications (preferences user)) (pp_notifications prefs) |} |} in
      Fulfilled (UserData updatedUser)
  | OtherValue v typeError =>
      match v with
      | JSON_null => Threw (TypeError (typeError "preferences"))
      | primitive _ => Fulfilled (OtherValue (object None (Some prefs)) typeError)
      | object nm None => Fulfilled (OtherValue (object nm (Some prefs)) typeError)
      | object nm (Some pp) =>
          Fulfilled (OtherValue (object nm (Some (merge_preferences pp prefs))) typeError)
      end
  end.

End Services.

(* ===================================================================== *)
(** ** Configuration ([config/api.ts], [utils/debug.ts]) *)
(* ===================================================================== *)

Module Config.
Import Api.

(** [Partial<APIConfig>]: [None] is a property that is not there. *)
Record PartialConfig := mkPartialConfig {
  p_baseURL : option string;
  p_wsURL : option string;
  p_timeout : option Z;
  p_enableMockMode : option bool
}.

(** [{ ...base, ...over }], and [Object.assign(base, over)] *)
Definition spread (base : APIConfig) (over : PartialConfig) : APIConfig :=
  {| baseURL := default (baseURL base) (p_baseURL over);
     wsURL := default (wsURL base) (p_wsURL over);
     timeout := default (timeout base) (p_timeout over);
     enableMockMode := default (enableMockMode base) (p_enableMockMode over) |}.

(** A configuration as the object it is, with every property there. *)
Definition full (c : APIConfig) : PartialConfig :=
  {| p_baseURL := Some (baseURL c); p_wsURL := Some (wsURL c);
     p_timeout := Some (timeout c); p_enableMockMode := Some (enableMockMode c) |}.

(** The entry [busTracker_config] of [localStorage] as the code sees it:
    absent (or the empty text), a text on which [JSON.parse] throws, or a
    text that parses; [parsed] then holds those of the four properties that
    the parsed value has, each of its declared type (none of them for
    [null], a number or an empty object). *)
Inductive StoredConfig :=
| NoConfig
| UnparseableConfig
| ConfigData (parsed : PartialConfig).

(** [getConfig()], by the value of its result: [windowConfig] is
    [window.__BUS_TRACKER_CONFIG__], [None] when it is not set. *)
Definition getConfig (windowConfig : option PartialConfig) (stored : StoredConfig)
  : APIConfig :=
  match windowConfig with
  | Some w => spread DEFAULT_CONFIG w
  | None =>
      match stored with
      | ConfigData parsed => spread DEFAULT_CONFIG parsed
      | UnparseableConfig => DEFAULT_CONFIG
      | NoConfig => DEFAULT_CONFIG
      end
  end.

(** The two objects of the module once it is evaluated. In its first two
    branches [getConfig] returns a new object; in the last it returns the
    object [DEFAULT_CONFIG] itself, so that [apiConfig] and [DEFAULT_CONFIG]
    are then one object. [defaults_now] is what the object [DEFAULT_CONFIG]
    holds; [own] is what [apiConfig] holds when it is an object of its own,
    and [None] when it is the object [DEFAULT_CONFIG]. *)
Record Loaded := mkLoaded {
  defaults_now : APIConfig;
  own : option APIConfig
}.

(** What [apiConfig] holds. *)
Definition apiConfig_of (m : Loaded) : APIConfig :=
  default (defaults_now m) (own m).

(** The evaluation of the module: [export const apiConfig = getConfig()]. *)
Definition load (windowConfig : option PartialConfig) (stored : StoredConfig) : Loaded :=
  {| defaults_now := DEFAULT_CONFIG;
     own := match windowConfig with
            | Some w => Some (spread DEFAULT_CONFIG w)
            | None =>
                match stored with
                | ConfigData parsed => Some (spread DEFAULT_CONFIG parsed)
                | UnparseableConfig => None
                | NoConfig => None
                end
            end |}.

(** [updateAPIConfig(newConfig)] on the module's objects and the stored
    entry. [Object.assign(apiConfig, newConfig)] writes to the object
    [DEFAULT_CONFIG] when [apiConfig] is that object;
    [{ ...DEFAULT_CONFIG, ...newConfig }] is read afterwards. [writable] is
    whether [localStorage.setItem] succeeds (a failure is caught and only
    logged). *)
Definition updateAPIConfig (newConfig : PartialConfig) (writable : bool)
    (state : Loaded * StoredConfig) : Loaded * StoredConfig :=
  let '(m, stored) := state in
  let m' :=
    match own m with
    | Some c => {| defaults_now := defaults_now m; own := Some (spread c newConfig) |}
    | None => {| defaults_now := spread (defaults_now m) newConfig; own := None |}
    end in
  (m',
   if writable then ConfigData (full (spread (defaults_now m') newConfig)) else stored).

(** A number of updates, one after the other. *)
Definition updates (l : list PartialConfig) (state : Loaded * StoredConfig)
  : Loaded * StoredConfig :=
  fold_left (fun st newConfig => updateAPIConfig newConfig true st) l state.

Definition nothing : PartialConfig :=
  {| p_baseURL := None; p_wsURL := None; p_timeout := None; p_enableMockMode := None |}.

(** The console helpers of [debugHelpers]. *)
Definition enableRealAPI : Loaded * StoredConfig -> Loaded * StoredConfig :=
  updateAPIConfig {| p_baseURL := None; p_wsURL := None; p_timeout := None;
                     p_enableMockMode := Some false |} true.

Definition enableMockAPI : Loaded * StoredConfig -> Loaded * StoredConfig :=
  updateAPIConfig {| p_baseURL := None; p_wsURL := None; p_timeout := None;
                     p_enableMockMode := Some true |} true.

Definition setAPIUrl (u : string) : Loaded * StoredConfig -> Loaded * StoredConfig :=
  updateAPIConfig {| p_baseURL := Some u; p_wsURL := None; p_timeout := None;
                     p_enableMockMode := None |} true.

Definition setWSUrl (u : string) : Loaded * StoredConfig -> Loaded * StoredConfig :=
  updateAPIConfig {| p_baseURL := None; p_wsURL := Some u; p_timeout := None;
                     p_enableMockMode := None |} true.

End Config.

(* ===================================================================== *)
(** ** The application shell ([App.tsx]) and the login dialog ([AuthModal.tsx]) *)
(* ===================================================================== *)

Module App.
Import Api Services.

Inductive Panel := search | bus | stop.

Record Route := mkRoute {
  route_id : string;
  number : string;
  route_name : string;
  description : string;
  frequency : string;
  operatingHours : string;
  route_stops : list string
}.

(** What the state cell [user] holds when it is truthy: a user, or the
    other value that was read from [localStorage] on mount. A falsy value
    in the cell ([null] and the like) is [None]. *)
Inductive UserValue :=
| AUser (u : User)
| AValue (v : NonUser).

(** The state cells of [App], what it has shown and logged, and the two
    entries of [localStorage] it and the login dialog read and write:
    [busTracker_token] and [busTracker_user]. *)
Record AppState := mkApp {
  isAuthenticated : bool;
  user : option UserValue;
  token : option string;
  showAuthModal : bool;
  selectedBus : option BusLocation;
  selectedStop : option Stop;
  activePanel : Panel;
  userFavorites : list string;
  isDrawerOpen : bool;
  toasts : list MapComponent.Toast;
  console : list string;
  stored_token : option string;
  stored_user : StoredUser
}.

(** The first render, over a given [localStorage]. *)
Definition initial (storedToken : option string) (storedUser : StoredUser) : AppState :=
  {| isAuthenticated := false; user := None; token := None; showAuthModal := false;
     selectedBus := None; selectedStop := None; activePanel := search;
     userFavorites := []; isDrawerOpen := false; toasts := []; console := [];
     stored_token := storedToken; stored_user := storedUser |}.

(** [setToken], [setUser], [setIsAuthenticated] and [setUserFavorites]
    together. *)
Definition session (authToken : option string) (authUser : option UserValue)
    (auth : bool) (favorites : list string) (a : AppState) : AppState :=
  mkApp auth authUser authToken (showAuthModal a) (selectedBus a) (selectedStop a)
    (activePanel a) favorites (isDrawerOpen a) (toasts a) (console a)
    (stored_token a) (stored_user a).

Definition setShowAuthModal (v : bool) (a : AppState) : AppState :=
  mkApp (isAuthenticated a) (user a) (token a) v (selectedBus a) (selectedStop a)
    (activePanel a) (userFavorites a) (isDrawerOpen a) (toasts a) (console a)
    (stored_token a) (stored_user a).

Definition selection (b : option BusLocation) (s : option Stop) (p : Panel)
    (a : AppState) : AppState :=
  mkApp (isAuthenticated a) (user a) (token a) (showAuthModal a) b s p
    (userFavorites a) (isDrawerOpen a) (toasts a) (console a)
    (stored_token a) (stored_user a).

Definition setActivePanel (p : Panel) (a : AppState) : AppState :=
  selection (selectedBus a) (selectedStop a) p a.

Definition setIsDrawerOpen (v : bool) (a : AppState) : AppState :=
  mkApp (isAuthenticated a) (user a) (token a) (showAuthModal a) (selectedBus a)
    (selectedStop a) (activePanel a) (userFavorites a) v (toasts a) (console a)
    (stored_token a) (stored_user a).

Definition setUser (v : option UserValue) (a : AppState) : AppState :=
  session (token a) v (isAuthenticated a) (userFavorites a) a.

Definition setUserFavorites (v : list string) (a : AppState) : AppState :=
  session (token a) (user a) (isAuthenticated a) v a.

Definition toast (t : MapComponent.Toast) (a : AppState) : AppState :=
  mkApp (isAuthenticated a) (user a) (token a) (showAuthModal a) (selectedBus a)
    (selectedStop a) (activePanel a) (userFavorites a) (isDrawerOpen a)
    (toasts a ++ [t]) (console a) (stored_token a) (stored_user a).

Definition console_error (text : string) (a : AppState) : AppState :=
  mkApp (isAuthenticated a) (user a) (token a) (showAuthModal a) (selectedBus a)
    (selectedStop a) (activePanel a) (userFavorites a) (isDrawerOpen a)
    (toasts a) (console a ++ [text]) (stored_token a) (stored_user a).

(** [localStorage.setItem] / [removeItem] on the two entries. *)
Definition store (t : option string) (u : StoredUser) (a : AppState) : AppState :=
  mkApp (isAuthenticated a) (user a) (token a) (showAuthModal a) (selectedBus a)
    (selectedStop a) (activePanel a) (userFavorites a) (isDrawerOpen a)
    (toasts a) (console a) t u.

(** Truthiness of a parsed value, and the value as the cell [user] holds
    it. *)
Definition value_truthy (v : NonUser) : bool :=
  match v with
  | JSON_null => false
  | primitive b => b
  | object _ _ => true
  end.

Definition user_cell (v : NonUser) : option UserValue :=
  if value_truthy v then Some (AValue v) else None.

(** [if (user)] *)
Definition cell_truthy (c : option UserValue) : bool :=
  match c with
  | None => false
  | Some (AUser _) => true
  | Some (AValue v) => value_truthy v
  end.

(** [`${parsedUser.name}`] on a value that is not a user. *)
Definition name_text (v : NonUser) : string :=
  match v with
  | object (Some nm) _ => nm
  | _ => "undefined"
  end.

(** The effect that runs on mount: [storedToken && storedUser], then in a
    [try]: [JSON.parse], the three setters, the spread of
    [parsedUser.preferences.favoriteRoutes], and the welcome. Where the
    spread throws, the three setters have already run; the [catch] logs and
    removes the two entries. *)
Definition mount_effect (a : AppState) : AppState :=
  if truthy (stored_token a) then
    match stored_user a with
    | NoUser => a
    | UserData parsedUser =>
        toast (MapComponent.toast_success
                 ("Welcome back, " +:+ user_name parsedUser +:+ "!"))
          (session (stored_token a) (Some (AUser parsedUser)) true
             (favoriteRoutes (preferences parsedUser)) a)
    | Unparseable _ =>
        store None NoUser (console_error "Error parsing stored user data:" a)
    | OtherValue parsedUser _ =>
        let a1 := session (stored_token a) (user_cell parsedUser) true
                    (userFavorites a) a in
        match read_favoriteRoutes parsedUser with
        | inl (Some favorites) =>
            toast (MapComponent.toast_success
                     ("Welcome back, " +:+ name_text parsedUser +:+ "!"))
              (setUserFavorites favorites a1)
        | inl None =>
            store None NoUser (console_error "Error parsing stored user data:" a1)
        | inr _ =>
            store None NoUser (console_error "Error parsing stored user data:" a1)
        end
    end
  else a.

Definition mounted (storedToken : option string) (storedUser : StoredUser) : AppState :=
  mount_effect (initial storedToken storedUser).

Definition handleAuth (authToken : string) (authUser : User) (a : AppState) : AppState :=
  toast (MapComponent.toast_success ("Welcome, " +:+ user_name authUser +:+ "!"))
    (session (Some authToken) (Some (AUser authUser)) true
       (favoriteRoutes (preferences authUser)) a).

Definition handleLogout (a : AppState) : AppState :=
  let a1 := store None NoUser a in
  let a2 := session None None false [] a1 in
  let a3 := selection None None search a2 in
  toast (MapComponent.toast_success "Logged out successfully") a3.

Definition handleBusSelect (isMobile : bool) (b : BusLocation) (a : AppState) : AppState :=
  let a1 := selection (Some b) None bus a in
  if isMobile then setIsDrawerOpen true a1 else a1.

Definition handleStopSelect (isMobile : bool) (s : Stop) (a : AppState) : AppState :=
  let a1 := selection None (Some s) stop a in
  if isMobile then setIsDrawerOpen true a1 else a1.

Definition handleRouteSelect (route : Route) (a : AppState) : AppState :=
  setActivePanel search
    (toast (MapComponent.toast_info
              ("Selected route " +:+ number route +:+ ": " +:+ route_name route)) a).

Definition handleGetDirections (s : Stop) (a : AppState) : AppState :=
  toast (MapComponent.toast_info ("Getting directions to " +:+ stop_name s +:+ "...")) a.

Definition closePanels (a : AppState) : AppState :=
  selection None None search a.

(** [{ ...user, preferences: { ...user.preferences, favoriteRoutes } }],
    on a truthy value: spreading a number, a boolean or [undefined] gives no
    property that the code reads. *)
Definition with_favorites (favorites : list string) (u : UserValue) : UserValue :=
  match u with
  | AUser u => AUser (set_favoriteRoutes favorites u)
  | AValue (object nm (Some pp)) =>
      AValue (object nm (Some {| pp_favoriteRoutes := Some favorites;
                                 pp_notifications := pp_notifications pp |}))
  | AValue (object nm None) =>
      AValue (object nm (Some {| pp_favoriteRoutes := Some favorites;
                                 pp_notifications := None |}))
  | AValue _ =>
      AValue (object None (Some {| pp_favoriteRoutes := Some favorites;
                                   pp_notifications := None |}))
  end.

(** The call of [userAPI] that [handleToggleFavorite(id, type)] awaits. *)
Definition favorite_call (id : string) (a : AppState) : Settled StoredUser :=
  if Array_includes id (userFavorites a)
  then removeFavorite id (stored_user a)
  else addFavorite id (stored_user a).

(** [handleToggleFavorite(id, type)], with its call of [userAPI] on the
    stored entry. One call has settled before the next event. *)
Definition handleToggleFavorite (id : string) (a : AppState) : AppState :=
  let isCurrentlyFavorite := Array_includes id (userFavorites a) in
  let updated :=
    if isCurrentlyFavorite
    then List.filter (fun fav => negb (String.eqb fav id)) (userFavorites a)
    else userFavorites a ++ [id] in
  match favorite_call id a with
  | Fulfilled stored' =>
      let a1 := store (stored_token a) stored' a in
      let a2 := setUserFavorites updated a1 in
      let a3 := toast (MapComponent.toast_success
                         (if isCurrentlyFavorite then "Removed from favorites"
                          else "Added to favorites")) a2 in
      match user a with
      | Some u =>
          if cell_truthy (user a)
          then setUser (Some (with_favorites updated u)) a3
          else a3
      | None => a3
      end
  | Threw error =>
      let '(errorMessage, removed) := handleAPIError_full error in
      let a1 := if removed then store None NoUser a else a in
      console_error "Favorite toggle error:"
        (toast (MapComponent.toast_error
                  ("Failed to update favorites: " +:+ errorMessage)) a1)
  end.

(** *** The login dialog, where it succeeds

    [handleLogin] with the accepted credentials, and [handleSignup] with a
    form that passes its checks: both store the token and the user, call
    [onAuth] (which is [handleAuth]) and [onClose] (which closes the
    dialog). [now] is [Date.now()]. *)
Definition login_user : User :=
  {| user_id := "1"; email := "user@example.com"; user_name := "John Doe";
     preferences := {| favoriteRoutes := ["42"; "15"]; notifications := true |} |}.

Definition signup_user (formEmail formName : string) (now : nat) : User :=
  {| user_id := number_toString now; email := formEmail; user_name := formName;
     preferences := {| favoriteRoutes := []; notifications := true |} |}.

Definition auth_succeeds (mockUser : User) (now : nat) (a : AppState) : AppState :=
  let mockToken := "mock-jwt-token-" +:+ number_toString now in
  let a1 := store (Some mockToken) (UserData mockUser) a in
  setShowAuthModal false (handleAuth mockToken mockUser a1).

(** *** The shell as a transition system

    What can happen to the shell. [SessionRemoved] is [handleAPIError]
    meeting a message with [401] in a component under the shell (the map or
    the search panel, when a load fails): the two entries are removed from
    [localStorage], and no state cell of the shell is written. *)
Inductive Event :=
| OpenAuthModal
| CloseAuthModal
| LoginSucceeds (now : nat)
| SignupSucceeds (formEmail formName : string) (now : nat)
| Logout
| BusSelect (isMobile : bool) (b : BusLocation)
| StopSelect (isMobile : bool) (s : Stop)
| RouteSelect (route : Route)
| GetDirections (s : Stop)
| ToggleFavorite (id : string)
| ClosePanels
| DrawerChange (open : bool)
| SessionRemoved.

Definition step (a : AppState) (ev : Event) : AppState :=
  match ev with
  | OpenAuthModal => setShowAuthModal true a
  | CloseAuthModal => setShowAuthModal false a
  | LoginSucceeds now => auth_succeeds login_user now a
  | SignupSucceeds formEmail formName now =>
      auth_succeeds (signup_user formEmail formName now) now a
  | Logout => handleLogout a
  | BusSelect isMobile b => handleBusSelect isMobile b a
  | StopSelect isMobile s => handleStopSelect isMobile s a
  | RouteSelect route => handleRouteSelect route a
  | GetDirections s => handleGetDirections s a
  | ToggleFavorite id => handleToggleFavorite id a
  | ClosePanels => closePanels a
  | DrawerChange open => setIsDrawerOpen open a
  | SessionRemoved => store None NoUser a
  end.

Definition run (l : list Event) (a : AppState) : AppState :=
  fold_left step l a.

(** The page is loaded again: a fresh shell over the [localStorage] the
    old one leaves behind. *)
Definition reload (a : AppState) : AppState :=
  mounted (stored_token a) (stored_user a).

(** Splits a statement of six parts. *)
Ltac six := split; [|split; [|split; [|split; [|split]]]].

(** What holds in every state of the shell. *)
Definition consistent (a : AppState) : Prop :=
  (isAuthenticated a = true <-> token a <> None) /\
  (user a <> None -> isAuthenticated a = true) /\
  (forall u, user a = Some (AUser u) ->
     favoriteRoutes (preferences u) = userFavorites a) /\
  (activePanel a = bus -> selectedBus a <> None) /\
  (activePanel a = stop -> selectedStop a <> None) /\
  (selectedBus a = None \/ selectedStop a = None).

(** What holds besides, as long as the mount effect has not met a stored
    value that is not a user, and the session entries have not been removed
    from under the shell: the shell holds a user whenever it is
    authenticated, and what is stored is what it holds. *)
Definition in_step_with_storage (a : AppState) : Prop :=
  (isAuthenticated a = true -> user a <> None) /\
  (forall uv, user a = Some uv ->
     exists u, uv = AUser u /\
               stored_user a = UserData u /\
               stored_token a = token a /\ truthy (token a) = true) /\
  (isAuthenticated a = false ->
     truthy (stored_token a) = false \/ stored_user a = NoUser).

(** The session entries are not removed from under the shell during a run. *)
Definition undisturbed (l : list Event) : Prop :=
  Forall (fun ev => ev <> SessionRemoved) l.

(** A stop, for the scenarios. *)
Definition sample_stop : Stop :=
  {| stop_id := "1"; stop_name := "Times Square";
     stop_lat := 40.7580; stop_lng := -73.9855;
     routes := ["42"]; nextArrivals := []; facilities := [] |}.

End App.

(* ===================================================================== *)
(** ** Properties of the projector *)
(* ===================================================================== *)

Module ProjectorFacts.
Import Projector.
Local Open Scope Q_scope.

Lemma zoomFactor_reference : 2 ^ (referenceZoom - 10) == 1.
Proof. reflexivity. Qed.

(** Where the default centre sits in the bounding box. *)
Lemma latLngToPixel_default (w h : Q) :
  x (latLngToPixel 40.7128 (-74.0060) w h) == 0.175 * w /\
  y (latLngToPixel 40.7128 (-74.0060) w h) == 0.872 * h.
Proof.
  unfold latLngToPixel; cbn [x y minLat maxLat minLng maxLng BOUNDS].
  split; field.
Qed.



End ProjectorFacts.

(* ===================================================================== *)
(** ** Properties of the socket wrapper *)
(* ===================================================================== *)

Module ApiFacts.
Import Api.
Local Open Scope Z_scope.

(** *** Field equations *)

Lemma connect_reconnectAttempts env t :
  reconnectAttempts (connect env t).1 = reconnectAttempts t.
Proof. unfold connect. destruct (url_accepted env _); reflexivity. Qed.

Lemma connect_timers env t : timers (connect env t).1 = timers t.
Proof. unfold connect. destruct (url_accepted env _); reflexivity. Qed.

Lemma send_reconnectAttempts m t : reconnectAttempts (send m t) = reconnectAttempts t.
Proof.
  unfold send. destruct (ws t) as [i|]; [|reflexivity].
  destruct (sockets t !! i) as [s|]; [|reflexivity].
  destruct (ReadyState_eqb _ _); reflexivity.
Qed.

Lemma send_timers m t : timers (send m t) = timers t.
Proof.
  unfold send. destruct (ws t) as [i|]; [|reflexivity].
  destruct (sockets t !! i) as [s|]; [|reflexivity].
  destruct (ReadyState_eqb _ _); reflexivity.
Qed.

Lemma send_ws m t : ws (send m t) = ws t.
Proof.
  unfold send. destruct (ws t) as [i|] eqn:E; [|by rewrite E].
  destruct (sockets t !! i) as [s|]; [|by rewrite E].
  destruct (ReadyState_eqb _ _); simpl; by rewrite E.
Qed.

Lemma disconnect_reconnectAttempts t :
  reconnectAttempts (disconnect t) = reconnectAttempts t.
Proof. unfold disconnect. destruct (ws t); reflexivity. Qed.

Lemma disconnect_timers t : timers (disconnect t) = timers t.
Proof. unfold disconnect. destruct (ws t); reflexivity. Qed.

Lemma disconnect_ws t : ws (disconnect t) = None.
Proof. unfold disconnect. destruct (ws t) eqn:E; [reflexivity | exact E]. Qed.

Lemma ReadyState_eqb_eq a b : ReadyState_eqb a b = true <-> a = b.
Proof. destruct a, b; simpl; split; congruence. Qed.

(** *** The reconnection step *)

Lemma reconnect_below t :
  reconnectAttempts t < maxReconnectAttempts ->
  reconnectAttempts (reconnect t) = reconnectAttempts t + 1 /\
  timers (reconnect t) = timers t ++ [reconnectDelay * (reconnectAttempts t + 1)] /\
  ws (reconnect t) = ws t /\ sockets (reconnect t) = sockets t.
Proof.
  intros H. unfold reconnect.
  destruct (Z.ltb_spec (reconnectAttempts t) maxReconnectAttempts); [|lia].
  repeat split.
Qed.

Lemma reconnect_exhausted t :
  maxReconnectAttempts <= reconnectAttempts t -> reconnect t = t.
Proof.
  intros H. unfold reconnect.
  destruct (Z.ltb_spec (reconnectAttempts t) maxReconnectAttempts); [lia|reflexivity].
Qed.

Lemma reconnect_bounded t :
  0 <= reconnectAttempts t <= maxReconnectAttempts ->
  0 <= reconnectAttempts (reconnect t) <= maxReconnectAttempts.
Proof.
  intros H. unfold reconnect.
  destruct (Z.ltb_spec (reconnectAttempts t) maxReconnectAttempts); simpl; lia.
Qed.

(** The counter stays between zero and the maximum, whatever happens. *)
Lemma step_bounded env t a t' effs :
  step env t a = Some (t', effs) ->
  0 <= reconnectAttempts t <= maxReconnectAttempts ->
  0 <= reconnectAttempts t' <= maxReconnectAttempts.
Proof.
  intros Hs Hb. destruct a as [| |e]; simpl in Hs.
  - apply Some_inj in Hs. apply (f_equal fst) in Hs. simpl in Hs. subst t'.
    by rewrite connect_reconnectAttempts.
  - injection Hs as <- _. by rewrite disconnect_reconnectAttempts.
  - destruct e as [i|i data|i|i|k]; simpl in Hs.
    + destruct (sockets t !! i) as [s|]; [|discriminate].
      destruct (ReadyState_eqb _ _); [|discriminate].
      injection Hs as <- _. rewrite send_reconnectAttempts. simpl.
      unfold maxReconnectAttempts. lia.
    + destruct (sockets t !! i) as [s|]; [|discriminate].
      destruct (ReadyState_eqb _ _); [|discriminate].
      by injection Hs as <- _.
    + destruct (sockets t !! i) as [s|]; [|discriminate].
      destruct (ReadyState_eqb _ _); [discriminate|].
      by injection Hs as <- _.
    + destruct (sockets t !! i) as [s|]; [|discriminate].
      destruct (ReadyState_eqb _ _); [discriminate|].
      injection Hs as <- _. by apply reconnect_bounded.
    + destruct (timers t !! k); [|discriminate].
      unfold timer_callback in Hs.
      destruct (connect env _) as [t1 effs1] eqn:E.
      injection Hs as <- _.
      apply (f_equal fst) in E. simpl in E. subst t1.
      by rewrite connect_reconnectAttempts.
Qed.

Lemma run_bounded env l : forall t t' effs,
  run env l t = Some (t', effs) ->
  0 <= reconnectAttempts t <= maxReconnectAttempts ->
  0 <= reconnectAttempts t' <= maxReconnectAttempts.
Proof.
  induction l as [|a l IH]; intros t t' effs Hr Hb; simpl in Hr.
  - by injection Hr as <- _.
  - destruct (step env t a) as [[t1 effs1]|] eqn:Hs; [|discriminate].
    destruct (run env l t1) as [[t2 effs2]|] eqn:Hr2; [|discriminate].
    injection Hr as <- _.
    eapply IH; [exact Hr2|]. eapply step_bounded; eauto.
Qed.

(** *** Reconnection (C1) *)

(** The schedule when connections keep closing before they open: 1000,
    2000, 3000, 4000, 5000, then nothing. *)
Example backoff_schedule :
  let e := env_with ∅ in
  timers_after e [Call_connect; Browser (EvClose 0)] constructor = Some [1000] /\
  timers_after e (Call_connect :: failed_cycle 0 ++ [Browser (EvClose 1)]) constructor
    = Some [2000] /\
  timers_after e (Call_connect :: failed_cycle 0 ++ failed_cycle 1
                    ++ [Browser (EvClose 2)]) constructor
    = Some [3000] /\
  timers_after e (Call_connect :: failed_cycle 0 ++ failed_cycle 1 ++ failed_cycle 2
                    ++ [Browser (EvClose 3)]) constructor
    = Some [4000] /\
  timers_after e (Call_connect :: failed_cycle 0 ++ failed_cycle 1 ++ failed_cycle 2
                    ++ failed_cycle 3 ++ [Browser (EvClose 4)]) constructor
    = Some [5000] /\
  timers_after e exhausting_run constructor = Some [].
Proof. cbv zeta. repeat split; vm_compute; reflexivity. Qed.

(** A connection that opens resets the counter, so a drop after a
    successful reconnection is again followed by a delay of 1000. *)
Example backoff_restarts_after_open :
  timers_after (env_with ∅)
    (Call_connect :: failed_cycle 0 ++ failed_cycle 1
       ++ [Browser (EvOpen 2); Browser (EvClose 2)]) constructor
  = Some [1000].
Proof. vm_compute. reflexivity. Qed.

(** C1, counterexample. With the default configuration and no stored
    token: the caller connects and six connections in a row close without
    opening. The counter stands at the maximum 5, nothing is scheduled any
    more, and [onError] has not been called at all: no terminal error is
    surfaced, where the claim asks for exactly one. *)
Lemma C1_no_terminal_error :
  exists t effs,
    run (env_with ∅) exhausting_run constructor = Some (t, effs) /\
    reconnectAttempts t = maxReconnectAttempts /\
    timers t = [] /\
    surfaced_errors effs = [] /\
    length (surfaced_errors effs) <> 1%nat.
Proof.
  eexists _, _. split; [vm_compute; reflexivity|].
  repeat split. discriminate.
Qed.

(** C1, as the code has it. In every state the instance can reach, when a
    socket closes: the counter is between 0 and 5; below 5 it goes up by
    one and one reconnection is scheduled, after 1000 times the new value
    of the counter; at 5 the counter stays, nothing is scheduled; and in
    neither case is an error surfaced to the caller. *)
Theorem C1_reconnect_backoff env l t effs0 i t' effs :
  run env l constructor = Some (t, effs0) ->
  deliver env t (EvClose i) = Some (t', effs) ->
  0 <= reconnectAttempts t <= maxReconnectAttempts /\
  (reconnectAttempts t < maxReconnectAttempts ->
     reconnectAttempts t' = reconnectAttempts t + 1 /\
     timers t' = timers t ++ [reconnectDelay * reconnectAttempts t'] /\
     reconnectDelay * reconnectAttempts t < reconnectDelay * reconnectAttempts t') /\
  (reconnectAttempts t = maxReconnectAttempts ->
     reconnectAttempts t' = maxReconnectAttempts /\ timers t' = timers t) /\
  surfaced_errors effs = [] /\
  maxReconnectAttempts = 5 /\ reconnectDelay = 1000.
Proof.
  intros Hrun Hd.
  assert (Hb : 0 <= reconnectAttempts t <= maxReconnectAttempts).
  { eapply run_bounded; [exact Hrun|]. simpl. unfold maxReconnectAttempts. lia. }
  simpl in Hd.
  destruct (sockets t !! i) as [s|]; [|discriminate].
  destruct (ReadyState_eqb _ _); [discriminate|].
  injection Hd as <- <-.
  set (t1 := set_sockets _ t).
  assert (Ha : reconnectAttempts t1 = reconnectAttempts t) by reflexivity.
  assert (Ht : timers t1 = timers t) by reflexivity.
  split; [exact Hb|]. split; [|split; [|repeat split]].
  - intros Hlt. rewrite <- Ha in Hlt.
    destruct (reconnect_below t1 Hlt) as (E1 & E2 & _).
    rewrite E1, E2, Ha, Ht. repeat split. unfold reconnectDelay. lia.
  - intros Heq. rewrite reconnect_exhausted by lia. by rewrite Ha, Ht.
Qed.

Lemma C1_reconnect_backoff_witness :
  exists t',
    deliver (env_with ∅) (connect (env_with ∅) constructor).1 (EvClose 0)
      = Some (t', [ConsoleLog "WebSocket disconnected"]) /\
    reconnectAttempts t' = 1 /\ timers t' = [1000].
Proof.
  eexists. split; [vm_compute; reflexivity|].
  pose proof (C1_reconnect_backoff (env_with ∅) [Call_connect]
                (connect (env_with ∅) constructor).1 [] 0%nat _ _
                eq_refl eq_refl) as (_ & H & _).
  destruct H as (H1 & H2 & _); [vm_compute; reflexivity|].
  split; [exact H1 | exact H2].
Defined.

(** *** Teardown (C4) *)

(** C4, counterexample. First: the caller connects, the socket closes
    (one timer is now pending, 1000 ms), and the caller disconnects. The
    timer is still pending after [disconnect] has returned; when it fires, a
    second socket is created and becomes the current one. Second: the caller
    connects, the socket opens and the caller disconnects; the closure this
    causes is handled like any other and schedules a reconnection. *)
Lemma C4_timer_survives_disconnect :
  (exists t effs t' effs',
     run (env_with ∅) drop_then_disconnect constructor = Some (t, effs) /\
     ws t = None /\ timers t = [1000] /\
     deliver (env_with ∅) t (EvTimeout 0) = Some (t', effs') /\
     ws t' = Some 1%nat /\
     sockets t' !! 1%nat = Some (new_WebSocket "ws://localhost:3001/ws?token=null")) /\
  (exists t effs,
     run (env_with ∅) open_then_disconnect constructor = Some (t, effs) /\
     timers t = [1000]).
Proof.
  split.
  - eexists _, _, _, _. split; [vm_compute; reflexivity|].
    split; [reflexivity|]. split; [reflexivity|].
    split; [vm_compute; reflexivity|]. split; reflexivity.
  - eexists _, _. split; [vm_compute; reflexivity|]. reflexivity.
Qed.

(** C4, as the code has it. [disconnect] can be called in every state and
    surfaces nothing; calling it twice leaves the same state as calling it
    once; afterwards there is no current socket. If there was a current
    socket, [close()] has been called on it: it is closing unless it was
    closed already, with its URL and what was sent on it unchanged; every
    other socket is untouched; without a current socket nothing changes.
    The pending timers and the attempt counter stay as they were. *)
Theorem C4_disconnect_idempotent env t :
  step env t Call_disconnect = Some (disconnect t, []) /\
  disconnect (disconnect t) = disconnect t /\
  ws (disconnect t) = None /\
  timers (disconnect t) = timers t /\
  reconnectAttempts (disconnect t) = reconnectAttempts t /\
  length (sockets (disconnect t)) = length (sockets t) /\
  (forall i s, ws t = Some i -> sockets t !! i = Some s ->
     sockets (disconnect t) !! i
     = Some {| url := url s;
               readyState := match readyState s with
                             | CLOSED => CLOSED
                             | _ => CLOSING
                             end;
               sent := sent s |}) /\
  (forall i j, ws t = Some i -> j <> i ->
     sockets (disconnect t) !! j = sockets t !! j) /\
  (ws t = None -> disconnect t = t).
Proof.
  split; [reflexivity|]. split.
  { unfold disconnect at 1. by rewrite disconnect_ws. }
  split; [apply disconnect_ws|]. split; [apply disconnect_timers|].
  split; [apply disconnect_reconnectAttempts|]. split.
  { unfold disconnect. destruct (ws t); [|reflexivity].
    simpl. by rewrite length_alter. }
  split; [|split].
  - intros i s Hws Hi. unfold disconnect. rewrite Hws.
    cbn [sockets set_ws set_sockets].
    rewrite list_lookup_alter_eq, Hi. cbn [fmap option_fmap option_map].
    f_equal. unfold WebSocket_close.
    destruct s as [u r m]. cbn [readyState url sent]. by destruct r.
  - intros i j Hws Hne. unfold disconnect. rewrite Hws.
    cbn [sockets set_ws set_sockets].
    by rewrite list_lookup_alter_ne.
  - intros Hws. unfold disconnect. by rewrite Hws.
Qed.

Lemma C4_disconnect_idempotent_witness :
  let t := {| ws := Some 1%nat; reconnectAttempts := 0;
              sockets := [ {| url := "ws://localhost:3001/ws?token=null";
                              readyState := CLOSED; sent := [] |};
                           {| url := "ws://localhost:3001/ws?token=null";
                              readyState := OPEN; sent := [subscribe] |} ];
              timers := [] |} in
  sockets (disconnect t) !! 1%nat
    = Some {| url := "ws://localhost:3001/ws?token=null";
              readyState := CLOSING; sent := [subscribe] |} /\
  sockets (disconnect t) !! 0%nat = sockets t !! 0%nat /\
  disconnect (disconnect t) = disconnect t.
Proof.
  cbv zeta.
  destruct (C4_disconnect_idempotent (env_with ∅)
              {| ws := Some 1%nat; reconnectAttempts := 0;
                 sockets := [ {| url := "ws://localhost:3001/ws?token=null";
                                 readyState := CLOSED; sent := [] |};
                              {| url := "ws://localhost:3001/ws?token=null";
                                 readyState := OPEN; sent := [subscribe] |} ];
                 timers := [] |})
    as (_ & Hidem & _ & _ & _ & _ & Hcur & Hoth & _).
  split; [exact (Hcur 1%nat _ eq_refl eq_refl)|].
  split; [apply (Hoth 1%nat 0%nat eq_refl); discriminate | exact Hidem].
Defined.

(** *** The connection URL (C5) *)

(** C5, the code at the failing input. With nothing stored under
    [busTracker_token], [connect] is not an error and creates one socket,
    but the URL of that socket ends in [?token=null]: the query parameter is
    there, with the text of [null] as its value. The request helper of the
    same file leaves the [Authorization] header out in that case. *)
Lemma C5_anonymous_url_has_token_null :
  getAuthToken (env_with ∅) = None /\
  connect (env_with ∅) constructor =
    ({| ws := Some 0%nat; reconnectAttempts := 0;
        sockets := [ {| url := "ws://localhost:3001/ws?token=null";
                        readyState := CONNECTING; sent := [] |} ];
        timers := [] |}, []) /\
  authHeaders (getAuthToken (env_with ∅)) = [("Content-Type", "application/json")].
Proof. repeat split. Qed.

(** The same for every configuration and every instance. *)
Lemma connect_without_token env t :
  getAuthToken env = None ->
  url_accepted env (wsURL (apiConfig env) +:+ "?token=null") = true ->
  connect env t =
    (set_ws (Some (length (sockets t)))
       (set_sockets (sockets t ++ [new_WebSocket (wsURL (apiConfig env) +:+ "?token=null")]) t),
     []).
Proof.
  intros Htok Hok. unfold connect. rewrite Htok.
  change ("?token=" +:+ interpolate None) with "?token=null".
  by rewrite Hok.
Qed.

(** *** Opening (C6) *)




End ApiFacts.

(* ===================================================================== *)
(** ** Properties of the map component *)
(* ===================================================================== *)

Module MapFacts.
Import Api MapComponent.
Local Open Scope Z_scope.

(** *** What the callbacks leave alone *)

Lemma callbacks_zoomLevel effs : forall m, zoomLevel (callbacks effs m) = zoomLevel m.
Proof.
  unfold callbacks. induction effs as [|e effs IH]; intros m; simpl; [reflexivity|].
  rewrite IH. by destruct e.
Qed.

Lemma callbacks_instances effs : forall m, instances (callbacks effs m) = instances m.
Proof.
  unfold callbacks. induction effs as [|e effs IH]; intros m; simpl; [reflexivity|].
  rewrite IH. by destruct e.
Qed.

Lemma loadInitialData_zoomLevel data m : zoomLevel (loadInitialData data m) = zoomLevel m.
Proof. by destruct data as [[b s]|e]. Qed.

Lemma loadInitialData_instances data m : instances (loadInitialData data m) = instances m.
Proof. by destruct data as [[b s]|e]. Qed.

Lemma pollTick_zoomLevel g c m :
  zoomLevel (settle (pollTick g c m) m) = zoomLevel m.
Proof. unfold pollTick. simpl. by destruct (g _). Qed.

Lemma pollTick_instances g c m :
  instances (settle (pollTick g c m) m) = instances m.
Proof. unfold pollTick. simpl. by destruct (g _). Qed.

(** *** Zoom (C9) *)

Lemma step_zoomLevel env m ev m' :
  step env m ev = Some m' ->
  zoomLevel m' = zoomLevel m \/
  zoomLevel m' = Z.min (zoomLevel m + 1) 18 \/
  zoomLevel m' = Z.max (zoomLevel m - 1) 8.
Proof.
  intros H. destruct ev; simpl in H.
  - injection H as <-. left. by destruct mapElement.
  - injection H as <-. left. apply loadInitialData_zoomLevel.
  - destruct (updateInterval m); [|discriminate].
    injection H as <-. left. apply pollTick_zoomLevel.
  - destruct (instances m !! k) as [t|]; [|discriminate].
    destruct (deliver env t e) as [[t' effs]|]; [|discriminate].
    injection H as <-. left. by rewrite callbacks_zoomLevel.
  - injection H as <-. left. by destruct supported.
  - injection H as <-. by left.
  - injection H as <-. by left.
  - injection H as <-. right. by left.
  - injection H as <-. right. by right.
  - injection H as <-. by left.
Qed.

Lemma run_zoomLevel l : forall m m',
  run l m = Some m' ->
  MIN_ZOOM <= zoomLevel m <= MAX_ZOOM ->
  MIN_ZOOM <= zoomLevel m' <= MAX_ZOOM.
Proof.
  unfold MIN_ZOOM, MAX_ZOOM.
  induction l as [|[env ev] l IH]; intros m m' Hr Hb; simpl in Hr.
  - by injection Hr as <-.
  - destruct (step env m ev) as [m1|] eqn:Hs; [|discriminate].
    apply (IH _ _ Hr).
    destruct (step_zoomLevel _ _ _ _ Hs) as [E|[E|E]]; rewrite E; lia.
Qed.

(** C9. In every state the mounted component can reach, the zoom level is
    between 8 and 18; a zoom-in raises it by one or, at 18, leaves it; a
    zoom-out lowers it by one or, at 8, leaves it; and both results are
    between 8 and 18 again. The level starts at 13. *)
Theorem C9_zoom_clamped l m :
  run l mounted = Some m ->
  zoomLevel mounted = 13 /\
  MIN_ZOOM = 8 /\ MAX_ZOOM = 18 /\
  MIN_ZOOM <= zoomLevel m <= MAX_ZOOM /\
  MIN_ZOOM <= zoomLevel (handleZoomIn m) <= MAX_ZOOM /\
  MIN_ZOOM <= zoomLevel (handleZoomOut m) <= MAX_ZOOM /\
  0 <= zoomLevel (handleZoomIn m) - zoomLevel m <= 1 /\
  0 <= zoomLevel m - zoomLevel (handleZoomOut m) <= 1 /\
  (zoomLevel m = MAX_ZOOM -> zoomLevel (handleZoomIn m) = MAX_ZOOM) /\
  (zoomLevel m = MIN_ZOOM -> zoomLevel (handleZoomOut m) = MIN_ZOOM) /\
  (zoomLevel m < MAX_ZOOM -> zoomLevel (handleZoomIn m) = zoomLevel m + 1) /\
  (MIN_ZOOM < zoomLevel m -> zoomLevel (handleZoomOut m) = zoomLevel m - 1).
Proof.
  intros Hr.
  assert (Hb : MIN_ZOOM <= zoomLevel m <= MAX_ZOOM).
  { apply (run_zoomLevel _ _ _ Hr). unfold MIN_ZOOM, MAX_ZOOM. simpl. lia. }
  unfold MIN_ZOOM, MAX_ZOOM in *.
  change (zoomLevel (handleZoomIn m)) with (Z.min (zoomLevel m + 1) 18).
  change (zoomLevel (handleZoomOut m)) with (Z.max (zoomLevel m - 1) 8).
  repeat split; try reflexivity; lia.
Qed.

Lemma C9_zoom_clamped_witness :
  let clicks := [(env_with ∅, ZoomInClick); (env_with ∅, ZoomInClick);
                 (env_with ∅, ZoomInClick); (env_with ∅, ZoomInClick);
                 (env_with ∅, ZoomInClick); (env_with ∅, ZoomInClick)] in
  exists m, run clicks mounted = Some m /\
            zoomLevel m = 18 /\ zoomLevel (handleZoomIn m) = 18.
Proof.
  cbv zeta. eexists. split; [reflexivity|].
  split; [reflexivity|].
  match goal with
  | |- zoomLevel (handleZoomIn ?m) = _ =>
      destruct (C9_zoom_clamped
                  [(env_with ∅, ZoomInClick); (env_with ∅, ZoomInClick);
                   (env_with ∅, ZoomInClick); (env_with ∅, ZoomInClick);
                   (env_with ∅, ZoomInClick); (env_with ∅, ZoomInClick)]
                  m eq_refl)
        as (_ & _ & _ & _ & _ & _ & _ & _ & H & _)
  end.
  apply H. reflexivity.
Defined.

(** *** The fleet store (C2) *)

(** C2. Whatever the store holds, after a batch [B] is merged the vehicle
    collection is [B] itself, and the stops are as before. This is what
    happens on both paths into the store: a [bus_update] message handled by
    the socket wrapper, and a poll whose fetch answers [B]. So a vehicle
    (or a vehicle id) of an earlier batch that is not in [B] is not in the
    store afterwards. *)
Theorem C2_merge_replaces (m : MapState) (B : list BusLocation) :
  buses (mergeVehicles B m) = B /\
  stops (mergeVehicles B m) = stops m /\
  (forall S msg,
     buses (callbacks (handleMessage (mkServerMessage "bus_update" B S msg)) m) = B) /\
  (forall g c, g (pollBounds c) = Resolved B ->
     buses (settle (pollTick g c m) m) = B) /\
  (forall B1 v, In v B1 -> ~ In v B ->
     ~ In v (buses (mergeVehicles B (mergeVehicles B1 m)))) /\
  (forall B1 i, In i (map bus_id B1) -> ~ In i (map bus_id B) ->
     ~ In i (map bus_id (buses (mergeVehicles B (mergeVehicles B1 m))))).
Proof.
  split; [reflexivity|]. split; [reflexivity|]. split; [reflexivity|].
  split; [|split].
  - intros g c Hg. unfold pollTick. simpl. by rewrite Hg.
  - intros B1 v _ Hn. exact Hn.
  - intros B1 i _ Hn. exact Hn.
Qed.

Lemma C2_merge_replaces_witness :
  buses (settle (pollTick (fetch_answers batch2) defaultCenter
                   (mergeVehicles batch1 mounted))
           (mergeVehicles batch1 mounted)) = batch2 /\
  In "3" (map bus_id batch1) /\
  ~ In "3" (map bus_id (buses (mergeVehicles batch2 (mergeVehicles batch1 mounted)))).
Proof.
  destruct (C2_merge_replaces (mergeVehicles batch1 mounted) batch2)
    as (_ & _ & _ & Hpoll & _).
  destruct (C2_merge_replaces mounted batch2) as (_ & _ & _ & _ & _ & Hid).
  assert (H3 : In "3" (map bus_id batch1)) by (simpl; tauto).
  assert (Hn : ~ In "3" (map bus_id batch2)).
  { simpl. intros [H|[H|[H|[]]]]; discriminate H. }
  split; [|split].
  - apply Hpoll. reflexivity.
  - exact H3.
  - apply (Hid batch1 "3" H3 Hn).
Defined.

(** *** Geolocation failure (C7) *)

(** C7. When the geolocation request fails, the map centre becomes
    (40.7128, -74.0060) and the loading flag is cleared, whatever the cause;
    the user is shown a message chosen by the cause, then the notice that
    the default location is used. The messages for permission denied,
    position unavailable, timeout and any other code are four different
    texts. *)
Theorem C7_geolocation_failure (error : GeolocationPositionError) (m : MapState) :
  let m' := geolocation_error error m in
  mapCenter m' = {| lat := 40.7128; lng := -74.0060 |} /\
  locationLoading m' = false /\
  toasts m' = toasts m ++ [toast_error (errorMessage error);
                           toast_info "Using default location: New York City"] /\
  (code error = PERMISSION_DENIED ->
     errorMessage error = "Location access denied by user") /\
  (code error = POSITION_UNAVAILABLE ->
     errorMessage error = "Location information unavailable") /\
  (code error = TIMEOUT ->
     errorMessage error = "Location request timed out") /\
  (code error <> PERMISSION_DENIED -> code error <> POSITION_UNAVAILABLE ->
   code error <> TIMEOUT ->
     errorMessage error = "An unknown error occurred while retrieving location") /\
  NoDup ["Location access denied by user"; "Location information unavailable";
         "Location request timed out";
         "An unknown error occurred while retrieving location"].
Proof.
  cbv zeta. split; [reflexivity|]. split; [reflexivity|].
  split; [simpl; by rewrite <- app_assoc|].
  unfold errorMessage, PERMISSION_DENIED, POSITION_UNAVAILABLE, TIMEOUT.
  split; [by intros ->|]. split; [by intros ->|]. split; [by intros ->|].
  split.
  - intros H1 H2 H3.
    destruct (Z.eqb_spec (code error) 1); [lia|].
    destruct (Z.eqb_spec (code error) 2); [lia|].
    destruct (Z.eqb_spec (code error) 3); [lia|]. reflexivity.
  - apply (bool_decide_unpack _). by vm_compute.
Qed.

Lemma C7_geolocation_failure_witness :
  let denied := {| code := 1; geo_message := "User denied Geolocation" |} in
  let timed_out := {| code := 3; geo_message := "Timeout expired" |} in
  errorMessage denied = "Location access denied by user" /\
  errorMessage timed_out = "Location request timed out" /\
  errorMessage denied <> errorMessage timed_out /\
  mapCenter (geolocation_error denied mounted)
    = mapCenter (geolocation_error timed_out mounted).
Proof.
  cbv zeta.
  destruct (C7_geolocation_failure
              {| code := 1; geo_message := "User denied Geolocation" |} mounted)
    as (Hc1 & _ & _ & Hd & _).
  destruct (C7_geolocation_failure
              {| code := 3; geo_message := "Timeout expired" |} mounted)
    as (Hc3 & _ & _ & _ & _ & Ht & _).
  specialize (Hd eq_refl). specialize (Ht eq_refl).
  split; [exact Hd|]. split; [exact Ht|]. split.
  - rewrite Hd, Ht. discriminate.
  - cbv zeta in Hc1, Hc3. by rewrite Hc1, Hc3.
Defined.

(** *** A failed poll (C8) *)

(** C8. While the interval is live, a tick whose fetch rejects is handled:
    the callback completes without throwing, the vehicles and the stops are
    what they were, and the interval is still live, so that the next tick
    is handled too, and a next tick whose fetch answers a batch stores that
    batch. *)
Theorem C8_failed_poll_is_skipped env m c g error :
  updateInterval m = Some c ->
  g (pollBounds c) = Rejected error ->
  exists m',
    pollTick g c m = Resolved m' /\
    step env m (PollTick g) = Some m' /\
    buses m' = buses m /\
    stops m' = stops m /\
    updateInterval m' = Some c /\
    (forall env' g', exists m'', step env' m' (PollTick g') = Some m'') /\
    (forall env' batch,
       exists m'', step env' m' (PollTick (fetch_answers batch)) = Some m'' /\
                   buses m'' = batch).
Proof.
  intros Hi Hg.
  exists (console_write "Failed to update bus locations:" m).
  assert (Hp : pollTick g c m
               = Resolved (console_write "Failed to update bus locations:" m)).
  { unfold pollTick. by rewrite Hg. }
  split; [exact Hp|]. split; [unfold step; by rewrite Hi, Hp|].
  split; [reflexivity|]. split; [reflexivity|]. split; [exact Hi|]. split.
  - intros env' g'. simpl. rewrite Hi. eexists. reflexivity.
  - intros env' batch. simpl. rewrite Hi. eexists. split; reflexivity.
Qed.

Lemma C8_failed_poll_is_skipped_witness :
  exists m',
    step (env_with ∅) (mergeVehicles batch1 mounted) (PollTick fetch_rejects) = Some m' /\
    buses m' = batch1 /\
    updateInterval m' = Some defaultCenter.
Proof.
  destruct (C8_failed_poll_is_skipped (env_with ∅) (mergeVehicles batch1 mounted)
              defaultCenter fetch_rejects "Failed to fetch" eq_refl eq_refl)
    as (m' & _ & Hs & Hb & _ & Hi & _).
  exists m'. split; [exact Hs|]. split; [exact Hb | exact Hi].
Defined.

(** *** The socket wrapper is never connected (C10) *)

(** Nothing can happen to an instance that has never been connected. *)
Lemma deliver_constructor env e : deliver env constructor e = None.
Proof. by destruct e. Qed.

Lemma disconnect_constructor : disconnect constructor = constructor.
Proof. reflexivity. Qed.

Lemma Forall_alter_fixed {A} (f : A -> A) (a : A) i (l : list A) :
  f a = a -> Forall (fun b => b = a) l -> Forall (fun b => b = a) (alter f i l).
Proof.
  intros Hf Hl. revert i. induction Hl as [|b l Hb Hl IH]; intros i; [constructor|].
  destruct i as [|i]; simpl.
  - constructor; [by rewrite Hb | exact Hl].
  - constructor; [exact Hb | apply IH].
Qed.

Lemma effect_setup_fresh m :
  Forall (fun t => t = constructor) (instances m) ->
  Forall (fun t => t = constructor) (instances (effect_setup m)).
Proof.
  intros H. simpl. apply Forall_app. split; [exact H|]. by constructor.
Qed.

Lemma effect_cleanup_fresh m :
  Forall (fun t => t = constructor) (instances m) ->
  Forall (fun t => t = constructor) (instances (effect_cleanup m)).
Proof.
  intros H. simpl. by apply Forall_alter_fixed.
Qed.

Lemma setMapCenter_fresh v m :
  Forall (fun t => t = constructor) (instances m) ->
  Forall (fun t => t = constructor) (instances (setMapCenter v m)).
Proof.
  intros H. unfold setMapCenter. apply effect_setup_fresh.
  change (instances (set_mapCenter v (effect_cleanup m)))
    with (instances (effect_cleanup m)).
  by apply effect_cleanup_fresh.
Qed.

(** While every instance is fresh, no socket event can reach the
    component. *)
Lemma WsEvent_disabled env m k e :
  Forall (fun t => t = constructor) (instances m) ->
  step env m (WsEvent k e) = None.
Proof.
  intros H. simpl. destruct (instances m !! k) as [t|] eqn:Hk; [|reflexivity].
  rewrite Forall_lookup in H. rewrite (H _ _ Hk).
  by rewrite deliver_constructor.
Qed.

Lemma step_fresh env m ev m' :
  step env m ev = Some m' ->
  Forall (fun t => t = constructor) (instances m) ->
  Forall (fun t => t = constructor) (instances m').
Proof.
  intros Hs H. destruct ev.
  - simpl in Hs. injection Hs as <-. by destruct mapElement.
  - unfold step in Hs. injection Hs as <-. by rewrite loadInitialData_instances.
  - unfold step in Hs. destruct (updateInterval m); [|discriminate].
    apply Some_inj in Hs. subst m'. by rewrite pollTick_instances.
  - by rewrite WsEvent_disabled in Hs.
  - simpl in Hs. injection Hs as <-. by destruct supported.
  - simpl in Hs. injection Hs as <-.
    change (instances (geolocation_success position m))
      with (instances (setMapCenter position (setUserLocation (Some position) m))).
    by apply setMapCenter_fresh.
  - simpl in Hs. injection Hs as <-.
    change (instances (geolocation_error error m))
      with (instances
              (setMapCenter fallbackLocation
                 (toast (toast_error (errorMessage error))
                    (console_write "Geolocation error:"
                       (setLocationLoading false m))))).
    by apply setMapCenter_fresh.
  - simpl in Hs. by injection Hs as <-.
  - simpl in Hs. by injection Hs as <-.
  - simpl in Hs. injection Hs as <-. by apply effect_cleanup_fresh.
Qed.

Lemma run_fresh l : forall m m',
  run l m = Some m' ->
  Forall (fun t => t = constructor) (instances m) ->
  Forall (fun t => t = constructor) (instances m').
Proof.
  induction l as [|[env ev] l IH]; intros m m' Hr H; simpl in Hr.
  - by injection Hr as <-.
  - destruct (step env m ev) as [m1|] eqn:Hs; [|discriminate].
    apply (IH _ _ Hr). by apply (step_fresh _ _ _ _ Hs).
Qed.

Lemma mounted_fresh : Forall (fun t => t = constructor) (instances mounted).
Proof. repeat constructor. Qed.

(** C10. A new instance has no socket and no timer, and no browser event
    can reach it. In every state the mounted component can reach, every
    instance it has created is still as new: no socket event is possible,
    and an event that changes the vehicles is the settled initial fetch or
    a poll tick. *)
Theorem C10_map_never_connects l m :
  run l mounted = Some m ->
  (ws constructor = None /\ sockets constructor = [] /\ timers constructor = []) /\
  (forall env e, deliver env constructor e = None) /\
  Forall (fun t => t = constructor) (instances m) /\
  (forall env k e, step env m (WsEvent k e) = None) /\
  (forall env ev m',
     step env m ev = Some m' -> buses m' <> buses m ->
     (exists data, ev = InitialData data) \/ (exists g, ev = PollTick g)).
Proof.
  intros Hr.
  assert (Hf : Forall (fun t => t = constructor) (instances m))
    by (apply (run_fresh _ _ _ Hr), mounted_fresh).
  split; [by repeat split|]. split; [apply deliver_constructor|].
  split; [exact Hf|]. split; [intros; by apply WsEvent_disabled|].
  intros env ev m' Hs Hne. destruct ev.
  - simpl in Hs. injection Hs as <-. exfalso. apply Hne. by destruct mapElement.
  - left. by eexists.
  - right. by eexists.
  - by rewrite WsEvent_disabled in Hs.
  - simpl in Hs. injection Hs as <-. exfalso. apply Hne. by destruct supported.
  - simpl in Hs. injection Hs as <-. exfalso. by apply Hne.
  - simpl in Hs. injection Hs as <-. exfalso. by apply Hne.
  - simpl in Hs. injection Hs as <-. exfalso. by apply Hne.
  - simpl in Hs. injection Hs as <-. exfalso. by apply Hne.
  - simpl in Hs. injection Hs as <-. exfalso. by apply Hne.
Qed.

Lemma C10_map_never_connects_witness :
  let l := [(env_with ∅, GeoError {| code := 1; geo_message := "denied" |});
            (env_with ∅, PollTick (fetch_answers batch1));
            (env_with ∅, Unmount)] in
  exists m, run l mounted = Some m /\
            instances m = [constructor; constructor] /\
            step (env_with ∅) m (WsEvent 1 (EvOpen 0)) = None.
Proof.
  cbv zeta. eexists. split; [reflexivity|]. split; [reflexivity|].
  match goal with
  | |- step _ ?m _ = None =>
      destruct (C10_map_never_connects
                  [(env_with ∅, GeoError {| code := 1; geo_message := "denied" |});
                   (env_with ∅, PollTick (fetch_answers batch1));
                   (env_with ∅, Unmount)] m eq_refl)
        as (_ & _ & _ & H & _)
  end.
  apply H.
Defined.

End MapFacts.

(* ===================================================================== *)
(** ** Properties of marker rendering *)
(* ===================================================================== *)

Module MapRenderFacts.
Import Projector MapComponent MapRender.
Local Open Scope Q_scope.

Lemma lt_spec a b : lt a b = true <-> a < b.
Proof.
  unfold lt. rewrite negb_true_iff. split.
  - intros H. apply Qnot_le_lt. intros Hle.
    apply Qle_bool_iff in Hle. congruence.
  - intros H. destruct (Qle_bool b a) eqn:E; [|reflexivity].
    apply Qle_bool_iff in E. exfalso. exact (Qlt_not_le _ _ H E).
Qed.

Lemma culled_false d p :
  culled d p = false <-> (0 <= x p <= width d /\ 0 <= y p <= height d).
Proof.
  unfold culled, gt. rewrite !orb_false_iff.
  assert (Hn : forall a b, lt a b = false <-> b <= a).
  { intros a b. unfold lt. rewrite negb_false_iff. apply Qle_bool_iff. }
  rewrite !Hn. tauto.
Qed.

Lemma zoomFactor_positive (z : Z) : 0 < 2 ^ z.
Proof. apply Qpower_0_lt. reflexivity. Qed.

(** The base projection, with the constants of [BOUNDS] worked in. *)
Lemma latLngToPixel_x la ln w h :
  x (latLngToPixel la ln w h) == (ln - minLng BOUNDS) * w * (25 # 2).
Proof. unfold latLngToPixel; cbn [x minLng maxLng BOUNDS]. field. Qed.

Lemma latLngToPixel_y la ln w h :
  y (latLngToPixel la ln w h) == (maxLat BOUNDS - la) * h * 10.
Proof. unfold latLngToPixel; cbn [y minLat maxLat BOUNDS]. field. Qed.

Lemma getMarkerPosition_shifted c z d p :
  getMarkerPosition c z d p
  = latLngToPixel (lat (shifted c z p)) (lng (shifted c z p)) (width d) (height d).
Proof. reflexivity. Qed.

(** X2. Moving a point east never moves its marker left, and moving it
    north never moves its marker down, whatever the centre and the zoom
    level. *)
Theorem marker_position_monotone c z d p q :
  0 <= width d -> 0 <= height d ->
  (lng p <= lng q -> x (getMarkerPosition c z d p) <= x (getMarkerPosition c z d q)) /\
  (lat p <= lat q -> y (getMarkerPosition c z d q) <= y (getMarkerPosition c z d p)).
Proof.
  intros Hw Hh. rewrite !getMarkerPosition_shifted.
  rewrite !latLngToPixel_x, !latLngToPixel_y.
  cbn [lat lng shifted minLat maxLat minLng maxLng BOUNDS].
  set (sx := (lng c - -74.0060) / 2 ^ (z - 10)).
  set (sy := (lat c - 40.7128) / 2 ^ (z - 10)).
  split; intros H; nra.
Qed.

Lemma marker_position_monotone_witness :
  let d := {| width := 800; height := 600 |} in
  x (getMarkerPosition defaultCenter 13 d {| lat := 40.75; lng := -74.0 |})
    <= x (getMarkerPosition defaultCenter 13 d {| lat := 40.75; lng := -73.95 |}).
Proof.
  cbv zeta.
  apply (marker_position_monotone defaultCenter 13 {| width := 800; height := 600 |}
           {| lat := 40.75; lng := -74.0 |} {| lat := 40.75; lng := -73.95 |});
    discriminate.
Defined.

(** X3. The pixel offset between two markers depends on the two points
    and the surface only: 12.5 * width per degree of longitude and
    10 * height per degree of latitude, at every centre and every zoom
    level. Changing the zoom level or the centre moves all markers by the
    same amount and never changes their distances. *)
Theorem marker_offset_ignores_viewport c z d p q :
  x (getMarkerPosition c z d p) - x (getMarkerPosition c z d q)
    == (lng p - lng q) * width d * (25 # 2) /\
  y (getMarkerPosition c z d p) - y (getMarkerPosition c z d q)
    == (lat q - lat p) * height d * 10.
Proof.
  rewrite !getMarkerPosition_shifted, !latLngToPixel_x, !latLngToPixel_y.
  cbn [lat lng shifted]. split; ring.
Qed.

(** X4. While the viewport is centred on (40.7128, -74.0060), the zoom
    level has no effect at all: every point is drawn where the base
    projection puts it. *)
Theorem zoom_has_no_effect_at_default_center z d p :
  x (getMarkerPosition defaultCenter z d p)
    == x (latLngToPixel (lat p) (lng p) (width d) (height d)) /\
  y (getMarkerPosition defaultCenter z d p)
    == y (latLngToPixel (lat p) (lng p) (width d) (height d)).
Proof.
  rewrite getMarkerPosition_shifted, !latLngToPixel_x, !latLngToPixel_y.
  cbn [lat lng shifted defaultCenter].
  assert (H1 : -74.0060 - -74.0060 == 0) by reflexivity.
  assert (H2 : 40.7128 - 40.7128 == 0) by reflexivity.
  rewrite H1, H2. unfold Qdiv. rewrite !Qmult_0_l. split; ring.
Qed.

(** X5. On a surface without extent every marker is at the origin and
    passes the render's test, whatever the point, the centre and the zoom
    level. *)
Theorem zero_size_surface_draws_at_origin c z d p :
  width d == 0 -> height d == 0 ->
  x (getMarkerPosition c z d p) == 0 /\
  y (getMarkerPosition c z d p) == 0 /\
  culled d (getMarkerPosition c z d p) = false.
Proof.
  intros Hw Hh.
  assert (Hx : x (getMarkerPosition c z d p) == 0).
  { rewrite getMarkerPosition_shifted, latLngToPixel_x, Hw. ring. }
  assert (Hy : y (getMarkerPosition c z d p) == 0).
  { rewrite getMarkerPosition_shifted, latLngToPixel_y, Hh. ring. }
  split; [exact Hx|]. split; [exact Hy|].
  apply culled_false. rewrite Hx, Hy, Hw, Hh. repeat split; apply Qle_refl.
Qed.

Lemma zero_size_surface_draws_at_origin_witness :
  culled {| width := 0; height := 0 |}
    (getMarkerPosition {| lat := 51.5; lng := -0.12 |} 18 {| width := 0; height := 0 |}
       {| lat := 40.7580; lng := -73.9855 |}) = false.
Proof.
  apply (zero_size_surface_draws_at_origin {| lat := 51.5; lng := -0.12 |} 18
           {| width := 0; height := 0 |} {| lat := 40.7580; lng := -73.9855 |});
    reflexivity.
Defined.

(** X6. Every bus marker the render produces belongs to a bus of the
    store and lies on the surface; the markers keep the order of the store
    and are never more than the buses. The same for stops. *)
Theorem markers_lie_on_surface (m : MapState) :
  (forall bus position, In (bus, position) (busMarkers m) ->
     In bus (buses m) /\
     position = markerPosition m {| lat := bus_lat bus; lng := bus_lng bus |} /\
     0 <= x position <= width (mapDimensions m) /\
     0 <= y position <= height (mapDimensions m)) /\
  (forall stop position, In (stop, position) (stopMarkers m) ->
     In stop (stops m) /\
     position = markerPosition m {| lat := stop_lat stop; lng := stop_lng stop |} /\
     0 <= x position <= width (mapDimensions m) /\
     0 <= y position <= height (mapDimensions m)) /\
  map fst (busMarkers m) `sublist_of` buses m /\
  map fst (stopMarkers m) `sublist_of` stops m.
Proof.
  split; [|split; [|split]].
  - intros bus position Hin. unfold busMarkers in Hin.
    apply list_elem_of_In, list_elem_of_omap in Hin as (b & Hb & Hf). cbv beta zeta in Hf.
    destruct (culled _ _) eqn:Hc; [discriminate|].
    injection Hf as -> <-. split; [by apply list_elem_of_In|].
    split; [reflexivity|]. by apply culled_false.
  - intros stop position Hin. unfold stopMarkers in Hin.
    apply list_elem_of_In, list_elem_of_omap in Hin as (b & Hb & Hf). cbv beta zeta in Hf.
    destruct (culled _ _) eqn:Hc; [discriminate|].
    injection Hf as -> <-. split; [by apply list_elem_of_In|].
    split; [reflexivity|]. by apply culled_false.
  - unfold busMarkers. induction (buses m) as [|b l IH]; [constructor|].
    simpl. destruct (culled _ _); simpl; [by apply sublist_cons | by apply sublist_skip].
  - unfold stopMarkers. induction (stops m) as [|b l IH]; [constructor|].
    simpl. destruct (culled _ _); simpl; [by apply sublist_cons | by apply sublist_skip].
Qed.

Lemma markers_lie_on_surface_witness :
  let far := {| bus_id := "9"; routeNumber := "42"; bus_lat := 41.5; bus_lng := -73.9855;
                direction := "Uptown"; occupancy := low; nextStop := "Yonkers";
                estimatedArrival := "40 min"; vehicleNumber := None;
                speed := None; delay := None |} in
  let m := mergeVehicles [sample_bus "1"; far] mounted in
  map fst (busMarkers m) = [sample_bus "1"] /\
  forall position, In (sample_bus "1", position) (busMarkers m) ->
                   0 <= x position <= 800.
Proof.
  cbv zeta. split; [vm_compute; reflexivity|].
  intros position Hin.
  match type of Hin with
  | In _ (busMarkers ?m) =>
      destruct (markers_lie_on_surface m) as (H & _);
      destruct (H _ _ Hin) as (_ & _ & Hx & _)
  end.
  exact Hx.
Defined.

End MapRenderFacts.

(* ===================================================================== *)
(** ** Further properties of the map component *)
(* ===================================================================== *)

Module MapStateFacts.
Import Api MapComponent MapTrace.
Local Open Scope nat_scope.

Lemma setMapCenter_resources n v m :
  resources_ok n m -> resources_ok (S n) (setMapCenter v m).
Proof.
  intros (Hl & Hw & _). unfold resources_ok, setMapCenter, effect_setup.
  cbn [instances wsConnection updateInterval mapCenter
       set_instances set_updateInterval setWsConnection set_mapCenter effect_cleanup].
  rewrite length_app, length_alter, Hl. simpl.
  split; [lia|]. split; [reflexivity | by right].
Qed.

Lemma step_resources env m ev m' n :
  step env m ev = Some m' -> resources_ok n m ->
  resources_ok (if is_geolocation_result ev then S n else n) m'.
Proof.
  intros Hs H. destruct ev; cbn [is_geolocation_result].
  - simpl in Hs. injection Hs as <-. by destruct mapElement.
  - unfold step in Hs. injection Hs as <-. by destruct data as [[b st]|e].
  - unfold step in Hs. destruct (updateInterval m) eqn:E; [|discriminate].
    apply Some_inj in Hs. subst m'. unfold pollTick. simpl.
    destruct (getLiveBuses _); exact H.
  - unfold step in Hs.
    destruct (instances m !! k) as [t|] eqn:Hk; [|discriminate].
    destruct (deliver env t e) as [[t' effs]|]; [|discriminate].
    injection Hs as <-. destruct H as (Hl & Hw & Hi).
    assert (Hc : forall effs m0,
               wsConnection (callbacks effs m0) = wsConnection m0 /\
               updateInterval (callbacks effs m0) = updateInterval m0 /\
               mapCenter (callbacks effs m0) = mapCenter m0).
    { clear. unfold callbacks. induction effs as [|e effs IH]; intros m0; simpl; [done|].
      destruct (IH (callback e m0)) as (-> & -> & ->). by destruct e. }
    destruct (Hc effs (set_instances (<[k:=t']> (instances m)) m)) as (E1 & E2 & E3).
    unfold resources_ok. rewrite MapFacts.callbacks_instances, E1, E2, E3.
    cbn [instances set_instances wsConnection updateInterval mapCenter].
    by rewrite length_insert.
  - simpl in Hs. injection Hs as <-. by destruct supported.
  - simpl in Hs. injection Hs as <-.
    destruct (setMapCenter_resources n position (setUserLocation (Some position) m))
      as (Hl & Hw & Hi); [exact H|].
    split; [exact Hl|]. split; [exact Hw | exact Hi].
  - simpl in Hs. injection Hs as <-.
    destruct (setMapCenter_resources n fallbackLocation
                (toast (toast_error (errorMessage error))
                   (console_write "Geolocation error:" (setLocationLoading false m))))
      as (Hl & Hw & Hi); [exact H|].
    split; [exact Hl|]. split; [exact Hw | exact Hi].
  - simpl in Hs. by injection Hs as <-.
  - simpl in Hs. by injection Hs as <-.
  - simpl in Hs. injection Hs as <-. destruct H as (Hl & Hw & Hi).
    unfold resources_ok, effect_cleanup.
    cbn [instances wsConnection updateInterval set_instances set_updateInterval].
    rewrite length_alter. split; [exact Hl|]. split; [exact Hw | by left].
Qed.

Lemma run_resources l : forall m m' n,
  run l m = Some m' -> resources_ok n m ->
  resources_ok (geolocation_results l + n) m'.
Proof.
  induction l as [|[env ev] l IH]; intros m m' n Hr H; simpl in Hr.
  - injection Hr as <-. exact H.
  - destruct (step env m ev) as [m1|] eqn:Hs; [|discriminate].
    pose proof (IH _ _ _ Hr (step_resources _ _ _ _ _ Hs H)) as H'.
    unfold geolocation_results in *. rewrite filter_cons. cbn [snd].
    destruct (is_geolocation_result ev) eqn:Eg.
    + rewrite decide_True by reflexivity. cbn [length].
      replace (S (length (filter _ l)) + n) with (length (filter (fun e => is_geolocation_result e.2 = true) l) + S n) by lia.
      exact H'.
    + rewrite decide_False by discriminate. exact H'.
Qed.

Lemma mounted_resources : resources_ok 0 mounted.
Proof. unfold resources_ok. simpl. split; [reflexivity|]. split; [reflexivity | by right]. Qed.

(** X7. In every state the mounted component can reach, the effect has
    created one socket wrapper at mount and one more for every geolocation
    result (success or failure), the state cell [wsConnection] names the
    newest one, and the live polling interval, if any, was set up with the
    current map centre: a poll tick depends on the data source only through
    its answer for the window current centre +- 0.05. *)
Theorem socket_effect_resources l m :
  run l mounted = Some m ->
  length (instances m) = S (geolocation_results l) /\
  wsConnection m = Some (geolocation_results l) /\
  (updateInterval m = None \/ updateInterval m = Some (mapCenter m)) /\
  (forall env g g',
     g (pollBounds (mapCenter m)) = g' (pollBounds (mapCenter m)) ->
     step env m (PollTick g) = step env m (PollTick g')).
Proof.
  intros Hr.
  pose proof (run_resources _ _ _ _ Hr mounted_resources) as H.
  rewrite Nat.add_0_r in H. destruct H as (Hl & Hw & Hi).
  split; [exact Hl|]. split; [exact Hw|]. split; [exact Hi|].
  intros env g g' Hg. unfold step.
  destruct Hi as [-> | ->]; [reflexivity|].
  unfold pollTick. by rewrite Hg.
Qed.

Lemma socket_effect_resources_witness :
  let e := env_with ∅ in
  let l := [(e, LocateClick true);
            (e, GeoSuccess {| lat := 40.75; lng := -73.98 |});
            (e, GeoError {| code := 3; geo_message := "Timeout expired" |})] in
  exists m, run l mounted = Some m /\
            length (instances m) = 3 /\ wsConnection m = Some 2 /\
            updateInterval m = Some fallbackLocation.
Proof.
  cbv zeta. eexists. split; [reflexivity|].
  match goal with
  | |- length (instances ?m) = _ /\ _ =>
      destruct (socket_effect_resources
                  [(env_with ∅, LocateClick true);
                   (env_with ∅, GeoSuccess {| lat := 40.75; lng := -73.98 |});
                   (env_with ∅, GeoError {| code := 3; geo_message := "Timeout expired" |})]
                  m eq_refl) as (Hl & Hw & _)
  end.
  split; [exact Hl|]. split; [exact Hw | reflexivity].
Defined.

(** X8. In every state the mounted component can reach, an event that
    changes the stops is the settling of the initial fetch: neither a poll
    tick nor anything else refreshes them. *)
Theorem stops_change_only_by_initial_fetch l m env ev m' :
  run l mounted = Some m ->
  step env m ev = Some m' ->
  stops m' <> stops m ->
  exists busesData stopsData,
    ev = InitialData (Resolved (busesData, stopsData)) /\ stops m' = stopsData.
Proof.
  intros Hr Hs Hne.
  assert (Hf : Forall (fun t => t = constructor) (instances m))
    by (apply (MapFacts.run_fresh _ _ _ Hr), MapFacts.mounted_fresh).
  destruct ev.
  - simpl in Hs. injection Hs as <-. exfalso. apply Hne. by destruct mapElement.
  - unfold step in Hs. injection Hs as <-. destruct data as [[b st]|e].
    + by exists b, st.
    + exfalso. by apply Hne.
  - unfold step in Hs. destruct (updateInterval m); [|discriminate].
    apply Some_inj in Hs. subst m'. exfalso. apply Hne.
    unfold pollTick. simpl. by destruct (getLiveBuses _).
  - by rewrite MapFacts.WsEvent_disabled in Hs.
  - simpl in Hs. injection Hs as <-. exfalso. apply Hne. by destruct supported.
  - simpl in Hs. injection Hs as <-. exfalso. by apply Hne.
  - simpl in Hs. injection Hs as <-. exfalso. by apply Hne.
  - simpl in Hs. injection Hs as <-. exfalso. by apply Hne.
  - simpl in Hs. injection Hs as <-. exfalso. by apply Hne.
  - simpl in Hs. injection Hs as <-. exfalso. by apply Hne.
Qed.

Lemma stops_change_only_by_initial_fetch_witness :
  let st := {| stop_id := "1"; stop_name := "Times Square";
               stop_lat := 40.7580; stop_lng := -73.9855;
               routes := ["42"; "15"; "23"]; nextArrivals := [];
               facilities := ["Shelter"] |} in
  exists busesData stopsData,
    InitialData (Resolved (batch1, [st])) = InitialData (Resolved (busesData, stopsData)) /\
    stops (loadInitialData (Resolved (batch1, [st])) mounted) = stopsData.
Proof.
  cbv zeta.
  apply (stops_change_only_by_initial_fetch [] mounted (env_with ∅)
           (InitialData (Resolved (batch1, [ {| stop_id := "1"; stop_name := "Times Square";
               stop_lat := 40.7580; stop_lng := -73.9855;
               routes := ["42"; "15"; "23"]; nextArrivals := [];
               facilities := ["Shelter"] |} ]))) _ eq_refl eq_refl).
  discriminate.
Defined.

(** X9. However the initial fetch settles, the loading flag is cleared
    afterwards. When it resolves, vehicles and stops are the fetched ones
    and nothing is shown; when it rejects, vehicles and stops are what they
    were and exactly one error is shown, whose text is the prefix
    [Failed to load map data: ] followed by the text [handleAPIError] makes
    of the error. *)
Theorem initial_fetch_settles data m :
  let m' := loadInitialData data m in
  dataLoading m' = false /\
  (forall busesData stopsData, data = Resolved (busesData, stopsData) ->
     buses m' = busesData /\ stops m' = stopsData /\ toasts m' = toasts m) /\
  (forall error, data = Rejected error ->
     buses m' = buses m /\ stops m' = stops m /\
     toasts m' = toasts m ++ [toast_error ("Failed to load map data: " +:+ handleAPIError error)]).
Proof.
  cbv zeta. split; [by destruct data as [[b s]|e]|]. split.
  - by intros b s ->.
  - by intros e ->.
Qed.

Lemma initial_fetch_settles_witness :
  toasts (loadInitialData (Rejected "Request timeout") mounted)
  = [toast_error "Failed to load map data: Request timed out. Please check your connection and try again."].
Proof.
  destruct (initial_fetch_settles (Rejected "Request timeout") mounted) as (_ & _ & H).
  destruct (H "Request timeout" eq_refl) as (_ & _ & Ht).
  etransitivity; [exact Ht|]. reflexivity.
Defined.

End MapStateFacts.

(* ===================================================================== *)
(** ** Further properties of the socket wrapper *)
(* ===================================================================== *)

Module ApiTraceFacts.
Import Api ApiTrace.
Local Open Scope Z_scope.

(** An invariant of single steps is an invariant of runs. *)
Lemma run_preserves (P : BusTrackingWebSocket -> Prop) env :
  (forall t a t' effs, step env t a = Some (t', effs) -> P t -> P t') ->
  forall l t t' effs, run env l t = Some (t', effs) -> P t -> P t'.
Proof.
  intros Hstep. induction l as [|a l IH]; intros t t' effs Hr HP; simpl in Hr.
  - by injection Hr as <- _.
  - destruct (step env t a) as [[t1 effs1]|] eqn:Hs; [|discriminate].
    destruct (run env l t1) as [[t2 effs2]|] eqn:Hr2; [|discriminate].
    injection Hr as <- _. eapply IH; [exact Hr2|]. eapply Hstep; eauto.
Qed.

(** *** Sockets *)

Lemma connect_sockets_ok env t : sockets_ok env t -> sockets_ok env (connect env t).1.
Proof.
  intros [Hs Hc]. unfold connect. destruct (url_accepted env _); [|by split].
  split; cbn [fst sockets ws set_ws set_sockets].
  - apply Forall_app. split; [exact Hs|]. constructor; [|constructor].
    split; [reflexivity|]. split; [reflexivity | constructor].
  - right. cbn [sockets ws set_ws set_sockets]. split.
    + by destruct (sockets t).
    + rewrite length_app. simpl. f_equal. lia.
Qed.

Lemma close_socket_ok env s : socket_ok env s -> socket_ok env (WebSocket_close s).
Proof.
  intros (Hu & Hc & Hm). unfold WebSocket_close.
  destruct (readyState s) eqn:E; try (split; [exact Hu|]; split; [discriminate | exact Hm]).
  split; [exact Hu|]. split; [|exact Hm].
  intros H. rewrite E in H. discriminate H.
Qed.

Lemma disconnect_sockets_ok env t : sockets_ok env t -> sockets_ok env (disconnect t).
Proof.
  intros [Hs Hc]. unfold disconnect. destruct (ws t) as [i|] eqn:E; [|by split].
  split; simpl; [|by left].
  apply Forall_alter; [exact Hs|]. intros s _. apply close_socket_ok.
Qed.

Lemma send_sockets_ok env t :
  sockets_ok env t -> sockets_ok env (send subscribe t).
Proof.
  intros [Hs Hc]. unfold send.
  destruct (ws t) as [i|] eqn:E; [|by split].
  destruct (sockets t !! i) as [s|] eqn:Hi; [|by split].
  destruct (ReadyState_eqb (readyState s) OPEN) eqn:Hr; [|by split].
  apply ApiFacts.ReadyState_eqb_eq in Hr.
  destruct (Forall_lookup_1 _ _ _ _ Hs Hi) as (Hu & _ & Hm).
  split.
  - simpl. apply Forall_insert; [exact Hs|].
    split; [exact Hu|]. split.
    + simpl. rewrite Hr. discriminate.
    + simpl. apply Forall_app. split; [exact Hm|]. by repeat constructor.
  - unfold current_is_newest in *. simpl. rewrite length_insert.
    destruct Hc as [Hc|[Hne Hc]]; [by left|]. right. split; [|exact Hc].
    intros Hnil. apply (f_equal length) in Hnil. rewrite length_insert in Hnil.
    by destruct (sockets t).
Qed.

Lemma set_readyState_sockets_ok env t i s r :
  sockets_ok env t -> sockets t !! i = Some s -> r <> CONNECTING ->
  sockets_ok env (set_sockets (<[i := set_readyState r s]> (sockets t)) t).
Proof.
  intros [Hs Hc] Hi Hr.
  destruct (Forall_lookup_1 _ _ _ _ Hs Hi) as (Hu & _ & Hm).
  split.
  - simpl. apply Forall_insert; [exact Hs|]. split; [exact Hu|]. by split.
  - unfold current_is_newest in *. simpl. rewrite length_insert.
    destruct Hc as [Hc|[Hne Hc]]; [by left|]. right. split; [|exact Hc].
    intros Hnil. apply (f_equal length) in Hnil. rewrite length_insert in Hnil.
    by destruct (sockets t).
Qed.

Lemma reconnect_sockets_ok env t : sockets_ok env t -> sockets_ok env (reconnect t).
Proof.
  intros H. unfold reconnect. by destruct (_ <? _).
Qed.

Lemma step_sockets_ok env t a t' effs :
  step env t a = Some (t', effs) -> sockets_ok env t -> sockets_ok env t'.
Proof.
  intros Hs H. destruct a as [| |e]; simpl in Hs.
  - apply Some_inj in Hs. apply (f_equal fst) in Hs. simpl in Hs. subst t'.
    by apply connect_sockets_ok.
  - injection Hs as <- _. by apply disconnect_sockets_ok.
  - destruct e as [i|i data|i|i|k]; simpl in Hs.
    + destruct (sockets t !! i) as [s|] eqn:Hi; [|discriminate].
      destruct (ReadyState_eqb _ _); [|discriminate].
      injection Hs as <- _.
      apply send_sockets_ok.
      by apply (set_readyState_sockets_ok env t i s OPEN H Hi).
    + destruct (sockets t !! i) as [s|]; [|discriminate].
      destruct (ReadyState_eqb _ _); [|discriminate]. by injection Hs as <- _.
    + destruct (sockets t !! i) as [s|]; [|discriminate].
      destruct (ReadyState_eqb _ _); [discriminate|]. by injection Hs as <- _.
    + destruct (sockets t !! i) as [s|] eqn:Hi; [|discriminate].
      destruct (ReadyState_eqb _ _); [discriminate|].
      injection Hs as <- _. apply reconnect_sockets_ok.
      by apply (set_readyState_sockets_ok env t i s CLOSED H Hi).
    + destruct (timers t !! k); [|discriminate].
      unfold timer_callback in Hs.
      destruct (connect env _) as [t1 effs1] eqn:E.
      injection Hs as <- _.
      apply (f_equal fst) in E. simpl in E. subst t1.
      apply connect_sockets_ok. exact H.
Qed.

(** X10. However an instance is used in a fixed environment (calls of
    [connect] and [disconnect], browser events in any order): every socket
    it has created was constructed with the URL
    [wsURL + "?token=" + token]; nothing but the subscription message has
    been handed to any socket, and nothing at all to a socket that is still
    connecting; and the current socket, if there is one, is the socket
    created last. *)
Theorem sockets_invariant env l t effs :
  run env l constructor = Some (t, effs) ->
  Forall (fun s => url s = connectURL env /\
                   (readyState s = CONNECTING -> sent s = []) /\
                   Forall (fun m => m = subscribe) (sent s)) (sockets t) /\
  (ws t = None \/ (sockets t <> [] /\ ws t = Some (pred (length (sockets t))))).
Proof.
  intros Hr.
  apply (run_preserves (sockets_ok env) env (step_sockets_ok env) _ _ _ _ Hr).
  split; [constructor | by left].
Qed.

Lemma sockets_invariant_witness :
  exists t effs,
    run (env_with ∅) exhausting_run constructor = Some (t, effs) /\
    ws t = Some 5%nat /\ length (sockets t) = 6%nat /\
    Forall (fun s => url s = "ws://localhost:3001/ws?token=null") (sockets t).
Proof.
  destruct (run (env_with ∅) exhausting_run constructor) as [[t effs]|] eqn:Hr;
    [|vm_compute in Hr; discriminate Hr].
  exists t, effs. split; [reflexivity|].
  destruct (sockets_invariant (env_with ∅) exhausting_run t effs Hr) as [H _].
  vm_compute in Hr. injection Hr as <- <-.
  split; [reflexivity|]. split; [reflexivity|].
  eapply Forall_impl; [exact H|]. intros s (Hu & _). exact Hu.
Defined.

(** *** Timers *)

Lemma step_timers_ok env t a t' effs :
  step env t a = Some (t', effs) ->
  (0 <= reconnectAttempts t <= maxReconnectAttempts /\ Forall backoff_delay (timers t)) ->
  (0 <= reconnectAttempts t' <= maxReconnectAttempts /\ Forall backoff_delay (timers t')).
Proof.
  intros Hs [Hb Ht]. split; [by eapply ApiFacts.step_bounded|].
  destruct a as [| |e]; simpl in Hs.
  - apply Some_inj in Hs. apply (f_equal fst) in Hs. simpl in Hs. subst t'.
    by rewrite ApiFacts.connect_timers.
  - injection Hs as <- _. by rewrite ApiFacts.disconnect_timers.
  - destruct e as [i|i data|i|i|k]; simpl in Hs.
    + destruct (sockets t !! i) as [s|]; [|discriminate].
      destruct (ReadyState_eqb _ _); [|discriminate].
      injection Hs as <- _. by rewrite ApiFacts.send_timers.
    + destruct (sockets t !! i) as [s|]; [|discriminate].
      destruct (ReadyState_eqb _ _); [|discriminate]. by injection Hs as <- _.
    + destruct (sockets t !! i) as [s|]; [|discriminate].
      destruct (ReadyState_eqb _ _); [discriminate|]. by injection Hs as <- _.
    + destruct (sockets t !! i) as [s|]; [|discriminate].
      destruct (ReadyState_eqb _ _); [discriminate|].
      injection Hs as <- _. unfold reconnect.
      cbn [reconnectAttempts set_sockets].
      destruct (Z.ltb_spec (reconnectAttempts t) maxReconnectAttempts); [|exact Ht].
      cbn [timers set_timers set_reconnectAttempts reconnectAttempts set_sockets].
      apply Forall_app. split; [exact Ht|]. constructor; [|constructor].
      exists (reconnectAttempts t + 1). split; [lia | reflexivity].
    + destruct (timers t !! k); [|discriminate].
      unfold timer_callback in Hs.
      destruct (connect env _) as [t1 effs1] eqn:E.
      injection Hs as <- _.
      apply (f_equal fst) in E. simpl in E. subst t1.
      rewrite ApiFacts.connect_timers. cbn [timers set_timers].
      by apply Forall_delete.
Qed.

(** X11. However an instance is used, every reconnection timer that is
    pending has one of the delays 1000, 2000, 3000, 4000 or 5000 ms. *)
Theorem pending_delays_are_backoff_steps env l t effs :
  run env l constructor = Some (t, effs) ->
  Forall (fun d => d = 1000 \/ d = 2000 \/ d = 3000 \/ d = 4000 \/ d = 5000) (timers t).
Proof.
  intros Hr.
  pose proof (run_preserves
                (fun t => 0 <= reconnectAttempts t <= maxReconnectAttempts /\
                          Forall backoff_delay (timers t))
                env (step_timers_ok env) _ _ _ _ Hr) as H.
  destruct H as [_ H].
  { split; [simpl; unfold maxReconnectAttempts; lia | constructor]. }
  eapply Forall_impl; [exact H|].
  intros d (n & Hn & ->). unfold maxReconnectAttempts, reconnectDelay in *. lia.
Qed.

Lemma pending_delays_are_backoff_steps_witness :
  exists t effs,
    run (env_with ∅) open_then_disconnect constructor = Some (t, effs) /\
    Forall (fun d => d = 1000 \/ d = 2000 \/ d = 3000 \/ d = 4000 \/ d = 5000) (timers t) /\
    timers t = [1000].
Proof.
  destruct (run (env_with ∅) open_then_disconnect constructor) as [[t effs]|] eqn:Hr;
    [|vm_compute in Hr; discriminate Hr].
  exists t, effs. split; [reflexivity|].
  split; [exact (pending_delays_are_backoff_steps _ _ _ _ Hr)|].
  vm_compute in Hr. injection Hr as <- <-. reflexivity.
Defined.

(** *** Retries are bounded *)

Lemma step_retry_budget env t a t' effs :
  step env t a = Some (t', effs) -> is_open a = false ->
  Z.of_nat (length (sockets t')) + Z.of_nat (length (timers t')) - reconnectAttempts t'
  <= Z.of_nat (length (sockets t)) + Z.of_nat (length (timers t)) - reconnectAttempts t
     + (if is_connect a then 1 else 0).
Proof.
  intros Hs Ho.
  assert (Hconn : forall t0,
             Z.of_nat (length (sockets (connect env t0).1))
             <= Z.of_nat (length (sockets t0)) + 1).
  { intros t0. unfold connect. destruct (url_accepted env _); simpl; [|lia].
    rewrite length_app. simpl. lia. }
  destruct a as [| |e]; simpl in Hs; cbn [is_connect].
  - apply Some_inj in Hs. apply (f_equal fst) in Hs. simpl in Hs. subst t'.
    rewrite ApiFacts.connect_timers, ApiFacts.connect_reconnectAttempts.
    specialize (Hconn t). lia.
  - injection Hs as <- _.
    rewrite ApiFacts.disconnect_timers, ApiFacts.disconnect_reconnectAttempts.
    unfold disconnect. destruct (ws t); simpl; [rewrite length_alter|]; lia.
  - destruct e as [i|i data|i|i|k]; simpl in Hs.
    + discriminate Ho.
    + destruct (sockets t !! i) as [s|]; [|discriminate].
      destruct (ReadyState_eqb _ _); [|discriminate]. injection Hs as <- _. lia.
    + destruct (sockets t !! i) as [s|]; [|discriminate].
      destruct (ReadyState_eqb _ _); [discriminate|]. injection Hs as <- _. lia.
    + destruct (sockets t !! i) as [s|]; [|discriminate].
      destruct (ReadyState_eqb _ _); [discriminate|].
      injection Hs as <- _. unfold reconnect.
      cbn [reconnectAttempts set_sockets].
      destruct (Z.ltb_spec (reconnectAttempts t) maxReconnectAttempts).
      * cbn [timers sockets set_timers set_reconnectAttempts reconnectAttempts set_sockets].
        rewrite length_app, length_insert. simpl. lia.
      * cbn [timers sockets reconnectAttempts set_sockets].
        rewrite length_insert. lia.
    + destruct (timers t !! k) as [d|] eqn:Hk; [|discriminate].
      unfold timer_callback in Hs.
      destruct (connect env _) as [t1 effs1] eqn:E.
      injection Hs as <- _.
      apply (f_equal fst) in E. simpl in E. subst t1.
      rewrite ApiFacts.connect_timers, ApiFacts.connect_reconnectAttempts.
      specialize (Hconn (set_timers (delete k (timers t)) t)).
      cbn [timers sockets reconnectAttempts set_timers] in *.
      rewrite length_delete by eauto.
      apply lookup_lt_Some in Hk. lia.
Qed.

Lemma run_retry_budget env l : forall t t' effs,
  run env l t = Some (t', effs) -> no_open l ->
  Z.of_nat (length (sockets t')) + Z.of_nat (length (timers t')) - reconnectAttempts t'
  <= Z.of_nat (length (sockets t)) + Z.of_nat (length (timers t)) - reconnectAttempts t
     + Z.of_nat (connect_calls l).
Proof.
  induction l as [|a l IH]; intros t t' effs Hr Hno; simpl in Hr.
  - injection Hr as <- _. unfold connect_calls. simpl. lia.
  - destruct (step env t a) as [[t1 effs1]|] eqn:Hs; [|discriminate].
    destruct (run env l t1) as [[t2 effs2]|] eqn:Hr2; [|discriminate].
    injection Hr as <- _.
    apply Forall_cons in Hno as [Ha Hno].
    pose proof (step_retry_budget _ _ _ _ _ Hs Ha) as H1.
    pose proof (IH _ _ _ Hr2 Hno) as H2.
    unfold connect_calls in *. rewrite filter_cons.
    destruct (is_connect a).
    + rewrite decide_True by reflexivity. cbn [length]. lia.
    + rewrite decide_False by discriminate. lia.
Qed.

(** X12. As long as no socket opens, an instance creates at most five
    sockets more than its owner asked for: in a run without an open event,
    the sockets created so far and the reconnections still pending are
    together at most the number of [connect] calls plus the value of the
    attempt counter, which is at most 5. *)
Theorem retries_are_bounded env l t effs :
  run env l constructor = Some (t, effs) ->
  no_open l ->
  (length (sockets t) + length (timers t) <= connect_calls l + 5)%nat /\
  Z.of_nat (length (sockets t) + length (timers t))
    <= Z.of_nat (connect_calls l) + reconnectAttempts t.
Proof.
  intros Hr Hno.
  pose proof (run_retry_budget _ _ _ _ _ Hr Hno) as H. simpl in H.
  pose proof (ApiFacts.run_bounded _ _ _ _ _ Hr) as Hb.
  unfold maxReconnectAttempts in Hb. simpl in Hb. lia.
Qed.

Lemma retries_are_bounded_witness :
  exists t effs,
    run (env_with ∅) exhausting_run constructor = Some (t, effs) /\
    connect_calls exhausting_run = 1%nat /\
    (length (sockets t) + length (timers t) <= 6)%nat.
Proof.
  destruct (run (env_with ∅) exhausting_run constructor) as [[t effs]|] eqn:Hr;
    [|vm_compute in Hr; discriminate Hr].
  exists t, effs. split; [reflexivity|]. split; [reflexivity|].
  assert (Hno : no_open exhausting_run) by (repeat constructor).
  destruct (retries_are_bounded _ _ _ _ Hr Hno) as [H _].
  exact H.
Defined.

(** *** A constructor that throws *)

Lemma surfaced_errors_app effs1 effs2 :
  surfaced_errors (effs1 ++ effs2) = surfaced_errors effs1 ++ surfaced_errors effs2.
Proof. unfold surfaced_errors. apply omap_app. Qed.

(** X13. Where the [WebSocket] constructor throws on every URL, an
    instance never gets a socket or a timer: it stays exactly as
    constructed, no browser event can reach it, and the caller is told
    [Failed to establish WebSocket connection] once per call of [connect]
    and nothing else. *)
Theorem constructor_failure_is_reported_per_call env l t effs :
  (forall u, url_accepted env u = false) ->
  run env l constructor = Some (t, effs) ->
  t = constructor /\
  surfaced_errors effs
  = replicate (connect_calls l) "Failed to establish WebSocket connection" /\
  Forall (fun a => forall e, a <> Browser e) l.
Proof.
  intros Hrej. revert t effs.
  induction l as [|a l IH]; intros t effs Hr; simpl in Hr.
  - injection Hr as <- <-. by repeat split.
  - destruct (step env constructor a) as [[t1 effs1]|] eqn:Hs; [|discriminate].
    destruct (run env l t1) as [[t2 effs2]|] eqn:Hr2; [|discriminate].
    injection Hr as <- <-.
    assert (H1 : t1 = constructor /\
                 surfaced_errors effs1
                 = (if is_connect a
                    then ["Failed to establish WebSocket connection"] else []) /\
                 (forall e, a <> Browser e)).
    { destruct a as [| |e]; simpl in Hs.
      - unfold connect in Hs. rewrite Hrej in Hs. injection Hs as <- <-.
        by repeat split.
      - injection Hs as <- <-. by repeat split.
      - by rewrite MapFacts.deliver_constructor in Hs. }
    destruct H1 as (-> & He & Hb).
    destruct (IH _ _ Hr2) as (-> & He2 & Hf).
    split; [reflexivity|]. split.
    + rewrite surfaced_errors_app, He, He2. unfold connect_calls.
      rewrite filter_cons. destruct (is_connect a).
      * by rewrite decide_True.
      * by rewrite decide_False.
    + constructor; [exact Hb | exact Hf].
Qed.

Lemma constructor_failure_is_reported_per_call_witness :
  let env := {| apiConfig := DEFAULT_CONFIG; localStorage := ∅;
                url_accepted := fun _ => false |} in
  exists t effs,
    run env [Call_connect; Call_disconnect; Call_connect] constructor = Some (t, effs) /\
    t = constructor /\
    surfaced_errors effs = ["Failed to establish WebSocket connection";
                            "Failed to establish WebSocket connection"].
Proof.
  cbv zeta.
  destruct (run {| apiConfig := DEFAULT_CONFIG; localStorage := ∅;
                   url_accepted := fun _ => false |}
              [Call_connect; Call_disconnect; Call_connect] constructor)
    as [[t effs]|] eqn:Hr; [|vm_compute in Hr; discriminate Hr].
  exists t, effs. split; [reflexivity|].
  destruct (constructor_failure_is_reported_per_call
              {| apiConfig := DEFAULT_CONFIG; localStorage := ∅;
                 url_accepted := fun _ => false |} _ _ _ (fun _ => eq_refl) Hr)
    as (Ht & He & _).
  split; [exact Ht | exact He].
Defined.

(** *** Disconnecting does not stop the reconnection *)

(** X14. When the owner disconnects while the current socket is not yet
    closed and the attempt counter is below 5, the closure the browser then
    reports is handled like a connection loss: a reconnection is scheduled
    after 1000 * (counter + 1) ms, and when that timer fires a new socket
    is created and becomes the current one. *)
Theorem disconnect_is_followed_by_reconnection env t i s :
  ws t = Some i ->
  sockets t !! i = Some s ->
  readyState s <> CLOSED ->
  reconnectAttempts t < maxReconnectAttempts ->
  url_accepted env (connectURL env) = true ->
  exists t1 effs1 t2 effs2,
    deliver env (disconnect t) (EvClose i) = Some (t1, effs1) /\
    ws t1 = None /\
    timers t1 = timers t ++ [reconnectDelay * (reconnectAttempts t + 1)] /\
    surfaced_errors effs1 = [] /\
    deliver env t1 (EvTimeout (length (timers t))) = Some (t2, effs2) /\
    ws t2 = Some (length (sockets t)) /\
    sockets t2 !! length (sockets t) = Some (new_WebSocket (connectURL env)) /\
    timers t2 = timers t.
Proof.
  intros Hws Hi Hs Hlt Hok.
  assert (Hi' : sockets (disconnect t) !! i = Some (WebSocket_close s)).
  { unfold disconnect. rewrite Hws. cbn [sockets set_ws set_sockets].
    by rewrite list_lookup_alter_eq, Hi. }
  assert (Hc : ReadyState_eqb (readyState (WebSocket_close s)) CLOSED = false).
  { unfold WebSocket_close. by destruct (readyState s). }
  set (t0 := set_sockets (<[i:=set_readyState CLOSED (WebSocket_close s)]>
                            (sockets (disconnect t))) (disconnect t)).
  assert (Hd : deliver env (disconnect t) (EvClose i) = Some (onclose t0)).
  { simpl. by rewrite Hi', Hc. }
  assert (Ha0 : reconnectAttempts t0 = reconnectAttempts t).
  { unfold t0. cbn [reconnectAttempts set_sockets].
    apply ApiFacts.disconnect_reconnectAttempts. }
  assert (Ht0 : timers t0 = timers t).
  { unfold t0. cbn [timers set_sockets]. apply ApiFacts.disconnect_timers. }
  assert (Hl0 : length (sockets t0) = length (sockets t)).
  { unfold t0. cbn [sockets set_sockets]. rewrite length_insert.
    unfold disconnect. rewrite Hws. cbn [sockets set_ws set_sockets].
    by rewrite length_alter. }
  assert (Hw0 : ws t0 = None).
  { unfold t0. cbn [ws set_sockets]. apply ApiFacts.disconnect_ws. }
  destruct (ApiFacts.reconnect_below t0) as (Ha1 & Ht1 & Hw1 & Hs1); [by rewrite Ha0|].
  rewrite Ha0 in Ha1, Ht1. rewrite Ht0 in Ht1. rewrite Hw0 in Hw1.
  set (t1 := reconnect t0) in *.
  assert (Hk : timers t1 !! length (timers t)
               = Some (reconnectDelay * (reconnectAttempts t + 1))).
  { rewrite Ht1. by rewrite lookup_app_r, Nat.sub_diag by lia. }
  assert (Hdel : delete (length (timers t)) (timers t1) = timers t).
  { rewrite Ht1. rewrite (delete_middle (timers t) []). apply app_nil_r. }
  exists t1, [ConsoleLog "WebSocket disconnected"].
  eexists _, _.
  split; [exact Hd|]. split; [exact Hw1|]. split; [exact Ht1|]. split; [reflexivity|].
  split.
  { simpl. rewrite Hk. unfold timer_callback, connect.
    change (wsURL (apiConfig env) +:+ "?token=" +:+ interpolate (getAuthToken env))
      with (connectURL env).
    rewrite Hok. reflexivity. }
  cbn [ws sockets timers set_ws set_sockets set_timers].
  rewrite Hs1, Hl0. split; [reflexivity|]. split; [|exact Hdel].
  rewrite lookup_app_r by lia. by rewrite Hl0, Nat.sub_diag.
Qed.

Lemma disconnect_is_followed_by_reconnection_witness :
  exists t1 effs1 t2 effs2,
    deliver (env_with ∅)
      (disconnect (send subscribe
                     {| ws := Some 0%nat; reconnectAttempts := 0;
                        sockets := [ {| url := "ws://localhost:3001/ws?token=null";
                                        readyState := OPEN; sent := [] |} ];
                        timers := [] |}))
      (EvClose 0) = Some (t1, effs1) /\
    timers t1 = [1000] /\
    deliver (env_with ∅) t1 (EvTimeout 0) = Some (t2, effs2) /\
    ws t2 = Some 1%nat.
Proof.
  destruct (disconnect_is_followed_by_reconnection (env_with ∅)
              (send subscribe
                 {| ws := Some 0%nat; reconnectAttempts := 0;
                    sockets := [ {| url := "ws://localhost:3001/ws?token=null";
                                    readyState := OPEN; sent := [] |} ];
                    timers := [] |})
              0%nat
              {| url := "ws://localhost:3001/ws?token=null";
                 readyState := OPEN; sent := [subscribe] |})
    as (t1 & effs1 & t2 & effs2 & H1 & _ & H2 & _ & H3 & H4 & _);
    [reflexivity | reflexivity | discriminate | reflexivity | reflexivity |].
  exists t1, effs1, t2, effs2.
  split; [exact H1|]. split; [exact H2|]. split; [exact H3 | exact H4].
Defined.

(** *** Inbound messages *)

(** X15. A message event never changes the instance (no socket, counter
    or timer is touched: the connection stays as it is) and has exactly one
    effect. A payload that does not parse is reported on the console only;
    a [bus_update] goes to [onBusUpdate] with its data, a [stop_update] to
    [onStopUpdate], an [error] to [onError] with its message; any other
    type is logged and reaches no callback. *)
Theorem inbound_message_has_one_effect env t i data t' effs :
  deliver env t (EvMessage i data) = Some (t', effs) ->
  t' = t /\
  match data with
  | Rejected _ => effs = [ConsoleError "Failed to parse WebSocket message:"]
  | Resolved message =>
      (sm_type message = "bus_update" -> effs = [OnBusUpdate (data_buses message)]) /\
      (sm_type message = "stop_update" -> effs = [OnStopUpdate (data_stops message)]) /\
      (sm_type message = "error" -> effs = [OnError (sm_message message)]) /\
      (sm_type message <> "bus_update" -> sm_type message <> "stop_update" ->
       sm_type message <> "error" -> effs = [ConsoleLog "Unknown message type:"])
  end.
Proof.
  intros Hd. simpl in Hd.
  destruct (sockets t !! i) as [s|]; [|discriminate].
  destruct (ReadyState_eqb _ _); [|discriminate].
  injection Hd as <- <-. split; [reflexivity|].
  destruct data as [message|e]; [|reflexivity].
  unfold onmessage, try_catch, handleMessage.
  repeat split.
  - by intros ->.
  - by intros ->.
  - by intros ->.
  - intros H1 H2 H3.
    apply String.eqb_neq in H1, H2, H3. by rewrite H1, H2, H3.
Qed.

Lemma inbound_message_has_one_effect_witness :
  let t := {| ws := Some 0%nat; reconnectAttempts := 0;
              sockets := [ {| url := "ws://localhost:3001/ws?token=null";
                              readyState := OPEN; sent := [subscribe] |} ];
              timers := [] |} in
  let ping := {| sm_type := "ping"; data_buses := []; data_stops := [];
                 sm_message := "" |} in
  deliver (env_with ∅) t (EvMessage 0 (Resolved ping))
  = Some (t, [ConsoleLog "Unknown message type:"]).
Proof.
  cbv zeta.
  destruct (deliver (env_with ∅)
              {| ws := Some 0%nat; reconnectAttempts := 0;
                 sockets := [ {| url := "ws://localhost:3001/ws?token=null";
                                 readyState := OPEN; sent := [subscribe] |} ];
                 timers := [] |}
              (EvMessage 0 (Resolved {| sm_type := "ping"; data_buses := [];
                                        data_stops := []; sm_message := "" |})))
    as [[t' effs]|] eqn:Hd; [|vm_compute in Hd; discriminate Hd].
  destruct (inbound_message_has_one_effect _ _ _ _ _ _ Hd) as (-> & _ & _ & _ & H).
  rewrite H; [reflexivity | discriminate | discriminate | discriminate].
Defined.

End ApiTraceFacts.

(* ===================================================================== *)
(** ** Properties of requests, errors and stored preferences *)
(* ===================================================================== *)

Module ServicesFacts.
Import Api Services.

(** *** Requests *)

(** X16. The request helper resolves exactly when its fetch resolved with
    an [ok] response, and then with that response. A response that is not
    [ok] becomes an error with the text [API Error: <status> <statusText>];
    an aborted fetch becomes an error with the text [Request timeout]; any
    other rejection is passed on as it is. *)
Theorem request_settles (fetched : Settled Response) :
  (forall r, makeAuthenticatedRequest fetched = Fulfilled r <->
             fetched = Fulfilled r /\ ok r = true) /\
  (forall r, fetched = Fulfilled r -> ok r = false ->
     makeAuthenticatedRequest fetched
     = Threw (new_Error ("API Error: " +:+ number_toString (status r)
                           +:+ " " +:+ statusText r))) /\
  (forall e, fetched = Threw e -> is_Error e = true -> ex_name e = "AbortError" ->
     makeAuthenticatedRequest fetched = Threw (new_Error "Request timeout")) /\
  (forall e, fetched = Threw e -> (is_Error e = false \/ ex_name e <> "AbortError") ->
     makeAuthenticatedRequest fetched = Threw e).
Proof.
  split; [|split; [|split]].
  - intros r. split.
    + destruct fetched as [r'|e]; unfold makeAuthenticatedRequest; simpl.
      * destruct (ok r') eqn:E; simpl; [|discriminate].
        intros H. injection H as H. subst r'. by split.
      * destruct (is_Error e && _); discriminate.
    + intros [-> Hok]. unfold makeAuthenticatedRequest. by rewrite Hok.
  - intros r -> Hok. unfold makeAuthenticatedRequest. by rewrite Hok.
  - intros e -> He Hn. unfold makeAuthenticatedRequest. by rewrite He, Hn.
  - intros e -> H. unfold makeAuthenticatedRequest.
    destruct H as [-> | Hn]; [reflexivity|].
    apply String.eqb_neq in Hn. rewrite Hn. by rewrite andb_false_r.
Qed.

Lemma request_settles_witness :
  makeAuthenticatedRequest
    (Fulfilled {| ok := false; status := 503; statusText := "Service Unavailable" |})
  = Threw (new_Error "API Error: 503 Service Unavailable") /\
  makeAuthenticatedRequest
    (Threw {| is_Error := true; ex_name := "AbortError";
              ex_message := "The operation was aborted." |})
  = Threw (new_Error "Request timeout").
Proof.
  destruct (request_settles
              (Fulfilled {| ok := false; status := 503;
                            statusText := "Service Unavailable" |}))
    as (_ & H1 & _).
  destruct (request_settles
              (Threw {| is_Error := true; ex_name := "AbortError";
                        ex_message := "The operation was aborted." |}))
    as (_ & _ & H2 & _).
  split.
  - etransitivity; [apply (H1 _ eq_refl eq_refl)|]. reflexivity.
  - apply (H2 _ eq_refl eq_refl eq_refl).
Defined.

(** *** Error texts *)

(** X17. What [handleAPIError] makes of an error: a message that contains
    [401] gives the session-expired text and removes the two session
    entries, whatever else the message contains; otherwise nothing is
    removed, and the text is the timeout text if the message contains
    [timeout], else the connection text if it contains [Failed to fetch],
    else the message itself. A thrown value that is not an [Error] gives
    [An unexpected error occurred.]. After the removal there is no token to
    read; without it the storage is what it was. *)
Theorem error_text_and_session (error : Exception) (storage : gmap string string) :
  let r := handleAPIError_on error storage in
  (is_Error error = true -> r.1 = handleAPIError (ex_message error)) /\
  (is_Error error = false -> r = ("An unexpected error occurred.", storage)) /\
  (is_Error error = true -> includes "401" (ex_message error) = true ->
     r.1 = "Session expired. Please log in again." /\
     r.2 !! "busTracker_token" = None /\ r.2 !! "busTracker_user" = None /\
     getAuthToken {| apiConfig := DEFAULT_CONFIG; localStorage := r.2;
                     url_accepted := fun _ => true |} = None /\
     (forall k, k <> "busTracker_token" -> k <> "busTracker_user" ->
                r.2 !! k = storage !! k)) /\
  (includes "401" (ex_message error) = false -> r.2 = storage) /\
  (is_Error error = true ->
   includes "401" (ex_message error) = false ->
   includes "timeout" (ex_message error) = false ->
   includes "Failed to fetch" (ex_message error) = false ->
     r.1 = ex_message error).
Proof.
  cbv zeta. unfold handleAPIError_on, handleAPIError_full, handleAPIError.
  split; [|split; [|split; [|split]]].
  - intros ->. destruct (includes "401" _); [reflexivity|].
    destruct (includes "timeout" _); [reflexivity|].
    by destruct (includes "Failed to fetch" _).
  - by intros ->.
  - intros -> ->. cbn [fst snd]. unfold getAuthToken, remove_session. cbn [localStorage].
    split; [reflexivity|].
    assert (Ht : delete "busTracker_user" (delete "busTracker_token" storage)
                   !! "busTracker_token" = None).
    { rewrite lookup_delete_ne by discriminate. apply lookup_delete_eq. }
    split; [exact Ht|]. split; [apply lookup_delete_eq|]. split; [exact Ht|].
    intros k Hk1 Hk2. by rewrite !lookup_delete_ne.
  - intros ->. destruct (is_Error error); [|reflexivity].
    destruct (includes "timeout" _); [reflexivity|].
    by destruct (includes "Failed to fetch" _).
  - by intros -> -> -> ->.
Qed.

Lemma error_text_and_session_witness :
  let storage : gmap string string :=
    <["busTracker_token" := "mock_jwt_token_1"]> (<["debug_api" := "true"]> ∅) in
  let r := handleAPIError_on (new_Error "API Error: 401 Unauthorized (timeout)") storage in
  r.1 = "Session expired. Please log in again." /\
  r.2 !! "busTracker_token" = None /\
  r.2 !! "debug_api" = Some "true".
Proof.
  cbv zeta.
  destruct (error_text_and_session
              (new_Error "API Error: 401 Unauthorized (timeout)")
              (<["busTracker_token" := "mock_jwt_token_1"]> (<["debug_api" := "true"]> ∅)))
    as (_ & _ & H & _).
  destruct (H eq_refl eq_refl) as (H1 & H2 & _ & _ & H3).
  split; [exact H1|]. split; [exact H2|].
  cbv zeta in H3. rewrite H3 by discriminate. reflexivity.
Defined.

(** X18. A response with status 401 ends the session: the request helper
    throws, [handleAPIError] answers with the session-expired text and
    removes the token, and a socket wrapper that connects afterwards finds
    no token and builds the URL [wsURL + "?token=null"]. *)
Theorem unauthorized_response_ends_session env (r : Response) :
  ok r = false -> status r = 401%nat ->
  exists e,
    makeAuthenticatedRequest (Fulfilled r) = Threw e /\
    (handleAPIError_on e (localStorage env)).1 = "Session expired. Please log in again." /\
    let env' := {| apiConfig := apiConfig env;
                   localStorage := (handleAPIError_on e (localStorage env)).2;
                   url_accepted := url_accepted env |} in
    getAuthToken env' = None /\
    ApiTrace.connectURL env' = wsURL (apiConfig env) +:+ "?token=null" /\
    (forall t, url_accepted env (wsURL (apiConfig env) +:+ "?token=null") = true ->
       (connect env' t).2 = [] /\
       sockets (connect env' t).1
       = sockets t ++ [new_WebSocket (wsURL (apiConfig env) +:+ "?token=null")]).
Proof.
  intros Hok Hst.
  exists (new_Error ("API Error: " +:+ number_toString (status r)
                       +:+ " " +:+ statusText r)).
  split; [unfold makeAuthenticatedRequest; by rewrite Hok|].
  assert (H401 : includes "401"
                   ("API Error: " +:+ number_toString (status r)
                      +:+ " " +:+ statusText r) = true).
  { rewrite Hst. reflexivity. }
  unfold handleAPIError_on, handleAPIError_full.
  cbn [is_Error new_Error ex_message]. rewrite H401. cbn [fst snd].
  split; [reflexivity|]. cbv zeta.
  assert (Htok : getAuthToken
                   {| apiConfig := apiConfig env;
                      localStorage := remove_session (localStorage env);
                      url_accepted := url_accepted env |} = None).
  { unfold getAuthToken, remove_session. cbn [localStorage].
    rewrite lookup_delete_ne by discriminate. apply lookup_delete_eq. }
  split; [exact Htok|]. split.
  - unfold ApiTrace.connectURL. rewrite Htok. reflexivity.
  - intros t Hacc. rewrite ApiFacts.connect_without_token; [by split|exact Htok|exact Hacc].
Qed.

Lemma unauthorized_response_ends_session_witness :
  let env := env_with (<["busTracker_token" := "mock_jwt_token_1"]> ∅) in
  getAuthToken env = Some "mock_jwt_token_1" /\
  exists e,
    makeAuthenticatedRequest
      (Fulfilled {| ok := false; status := 401; statusText := "Unauthorized" |}) = Threw e /\
    getAuthToken {| apiConfig := apiConfig env;
                    localStorage := (handleAPIError_on e (localStorage env)).2;
                    url_accepted := url_accepted env |} = None.
Proof.
  cbv zeta. split; [reflexivity|].
  destruct (unauthorized_response_ends_session
              (env_with (<["busTracker_token" := "mock_jwt_token_1"]> ∅))
              {| ok := false; status := 401; statusText := "Unauthorized" |}
              eq_refl eq_refl) as (e & H1 & _ & H2 & _).
  exists e. split; [exact H1 | exact H2].
Defined.

(** *** Request headers *)




(** *** Stored favourites *)

Lemma Array_includes_In x l : Array_includes x l = true <-> In x l.
Proof.
  unfold Array_includes. rewrite existsb_exists. split.
  - intros (y & Hy & He). apply String.eqb_eq in He. by subst.
  - intros H. exists x. split; [exact H | apply String.eqb_refl].
Qed.

Lemma Array_includes_not_In x l : Array_includes x l = false <-> ~ In x l.
Proof.
  rewrite <- Array_includes_In. by destruct (Array_includes x l).
Qed.

Lemma filter_ne_In id x l :
  In x (List.filter (fun fav => negb (String.eqb fav id)) l) <-> In x l /\ x <> id.
Proof.
  rewrite filter_In. rewrite negb_true_iff, String.eqb_neq. tauto.
Qed.

Lemma filter_ne_id id l :
  ~ In id l -> List.filter (fun fav => negb (String.eqb fav id)) l = l.
Proof.
  induction l as [|a l IH]; intros H; [reflexivity|]. simpl.
  destruct (String.eqb_spec a id) as [->|Hne]; simpl.
  - exfalso. apply H. by left.
  - f_equal. apply IH. intros Hin. apply H. by right.
Qed.

(** X20. Adding a favourite to a stored user always succeeds and leaves
    the id among the favourites; the list is unchanged if the id was there
    and has the id appended otherwise, so a list without repetitions stays
    one; nothing else of the user changes; and adding the same id again
    changes nothing. *)
Theorem addFavorite_adds_once (id : string) (u : User) :
  exists u',
    addFavorite id (UserData u) = Fulfilled (UserData u') /\
    In id (favoriteRoutes (preferences u')) /\
    (In id (favoriteRoutes (preferences u)) -> u' = u) /\
    (~ In id (favoriteRoutes (preferences u)) ->
       favoriteRoutes (preferences u') = favoriteRoutes (preferences u) ++ [id]) /\
    (List.NoDup (favoriteRoutes (preferences u)) ->
       List.NoDup (favoriteRoutes (preferences u'))) /\
    user_id u' = user_id u /\ email u' = email u /\ user_name u' = user_name u /\
    notifications (preferences u') = notifications (preferences u) /\
    addFavorite id (UserData u') = Fulfilled (UserData u').
Proof.
  unfold addFavorite.
  destruct (Array_includes id (favoriteRoutes (preferences u))) eqn:E; simpl.
  - exists u. apply Array_includes_In in E. rewrite (proj2 (Array_includes_In _ _) E).
    simpl. repeat split; try done.
  - apply Array_includes_not_In in E.
    exists (set_favoriteRoutes (favoriteRoutes (preferences u) ++ [id]) u).
    assert (Hin : In id (favoriteRoutes (preferences u) ++ [id])).
    { apply in_or_app. right. by left. }
    split; [reflexivity|]. split; [exact Hin|]. split; [done|]. split; [done|].
    split.
    { intros Hnd. simpl. apply NoDup_ListNoDup, NoDup_app.
      split; [by apply NoDup_ListNoDup|]. split.
      - intros x Hx Hx'. apply list_elem_of_In in Hx.
        apply list_elem_of_singleton in Hx'. by subst.
      - apply NoDup_singleton. }
    repeat split; try done.
    simpl. by rewrite (proj2 (Array_includes_In _ _) Hin).
Qed.

Lemma addFavorite_adds_once_witness :
  let u := {| user_id := "1"; email := "user@example.com"; user_name := "John Doe";
              preferences := {| favoriteRoutes := ["42"; "15"]; notifications := true |} |} in
  exists u',
    addFavorite "23" (UserData u) = Fulfilled (UserData u') /\
    favoriteRoutes (preferences u') = ["42"; "15"; "23"] /\
    List.NoDup (favoriteRoutes (preferences u')).
Proof.
  cbv zeta.
  destruct (addFavorite_adds_once "23"
              {| user_id := "1"; email := "user@example.com"; user_name := "John Doe";
                 preferences := {| favoriteRoutes := ["42"; "15"];
                                   notifications := true |} |})
    as (u' & H1 & _ & _ & H2 & H3 & _).
  exists u'. split; [exact H1|]. split.
  - apply H2. simpl. intros [H|[H|[]]]; discriminate H.
  - apply H3. simpl. apply NoDup_ListNoDup. apply (bool_decide_unpack _). by vm_compute.
Defined.

(** X21. Removing a favourite from a stored user always succeeds and
    removes every occurrence of the id; the other favourites stay, in their
    order; nothing else of the user changes. Removing an id that has just
    been added to a list that did not contain it gives back the list. With
    no stored user both operations succeed and store nothing, while
    [updatePreferences] throws [User not found]. *)
Theorem removeFavorite_removes_all (id : string) (u : User) :
  exists u',
    removeFavorite id (UserData u) = Fulfilled (UserData u') /\
    ~ In id (favoriteRoutes (preferences u')) /\
    (forall x, In x (favoriteRoutes (preferences u')) <->
               In x (favoriteRoutes (preferences u)) /\ x <> id) /\
    favoriteRoutes (preferences u') `sublist_of` favoriteRoutes (preferences u) /\
    (~ In id (favoriteRoutes (preferences u)) ->
       favoriteRoutes (preferences u') = favoriteRoutes (preferences u)) /\
    (~ In id (favoriteRoutes (preferences u)) ->
       exists ua, addFavorite id (UserData u) = Fulfilled (UserData ua) /\
                  exists ur, removeFavorite id (UserData ua) = Fulfilled (UserData ur) /\
                             favoriteRoutes (preferences ur)
                             = favoriteRoutes (preferences u)) /\
    user_id u' = user_id u /\ email u' = email u /\ user_name u' = user_name u /\
    notifications (preferences u') = notifications (preferences u) /\
    addFavorite id NoUser = Fulfilled NoUser /\
    removeFavorite id NoUser = Fulfilled NoUser /\
    (forall prefs, updatePreferences prefs NoUser = Threw (new_Error "User not found")).
Proof.
  eexists. split; [reflexivity|]. cbn [favoriteRoutes preferences set_favoriteRoutes].
  split; [rewrite filter_ne_In; tauto|].
  split; [intros x; apply filter_ne_In|].
  split.
  { induction (favoriteRoutes (preferences u)) as [|a l IH]; [constructor|].
    simpl. destruct (negb _); [by apply sublist_skip | by apply sublist_cons]. }
  split; [apply filter_ne_id|].
  split.
  { intros Hn. unfold addFavorite.
    rewrite (proj2 (Array_includes_not_In _ _) Hn). simpl.
    eexists. split; [reflexivity|]. eexists. split; [reflexivity|].
    cbn [favoriteRoutes preferences set_favoriteRoutes].
    rewrite List.filter_app. simpl. rewrite String.eqb_refl. simpl.
    rewrite app_nil_r. by apply filter_ne_id. }
  repeat split.
Qed.

Lemma removeFavorite_removes_all_witness :
  let u := {| user_id := "1"; email := "user@example.com"; user_name := "John Doe";
              preferences := {| favoriteRoutes := ["42"; "15"; "42"];
                                notifications := true |} |} in
  exists u',
    removeFavorite "42" (UserData u) = Fulfilled (UserData u') /\
    ~ In "42" (favoriteRoutes (preferences u')) /\
    (In "15" (favoriteRoutes (preferences u'))).
Proof.
  cbv zeta.
  destruct (removeFavorite_removes_all "42"
              {| user_id := "1"; email := "user@example.com"; user_name := "John Doe";
                 preferences := {| favoriteRoutes := ["42"; "15"; "42"];
                                   notifications := true |} |})
    as (u' & H1 & H2 & H3 & _).
  exists u'. split; [exact H1|]. split; [exact H2|].
  apply H3. split; [simpl; tauto | discriminate].
Defined.

End ServicesFacts.

(* ===================================================================== *)
(** ** Properties of the configuration *)
(* ===================================================================== *)

Module ConfigFacts.
Import Api Config.

Lemma spread_full base c : spread base (full c) = c.
Proof. by destruct c. Qed.

Lemma spread_idem c p : spread (spread c p) p = spread c p.
Proof.
  destruct p as [[b|] [w|] [t|] [m|]]; reflexivity.
Qed.

Lemma updates_snoc l p state :
  updates (l ++ [p]) state = updateAPIConfig p true (updates l state).
Proof. unfold updates. by rewrite fold_left_app. Qed.

Lemma getConfig_load windowConfig stored :
  getConfig windowConfig stored = apiConfig_of (load windowConfig stored).
Proof. destruct windowConfig as [w|]; [reflexivity|]. by destruct stored. Qed.

(** While [apiConfig] is the object [DEFAULT_CONFIG], it stays so, every
    update lands in the defaults, and the stored entry is the whole of
    them. *)
Lemma updates_shared l : forall m stored,
  own m = None ->
  own (updates l (m, stored)).1 = None /\
  defaults_now (updates l (m, stored)).1 = fold_left spread l (defaults_now m) /\
  (l <> [] ->
   (updates l (m, stored)).2
   = ConfigData (full (defaults_now (updates l (m, stored)).1))).
Proof.
  induction l as [|p l IH]; intros m stored Hown.
  - by repeat split.
  - set (m1 := {| defaults_now := spread (defaults_now m) p; own := None |}).
    assert (E : updateAPIConfig p true (m, stored)
                = (m1, ConfigData (full (spread (defaults_now m) p)))).
    { unfold updateAPIConfig. rewrite Hown. cbn [defaults_now].
      by rewrite spread_idem. }
    assert (Eu : updates (p :: l) (m, stored)
                 = updates l (m1, ConfigData (full (spread (defaults_now m) p)))).
    { unfold updates. cbn [fold_left]. by rewrite E. }
    rewrite Eu.
    destruct (IH m1 (ConfigData (full (spread (defaults_now m) p))) eq_refl)
      as (H1 & H2 & H3).
    split; [exact H1|]. split; [exact H2|]. intros _.
    destruct l as [|q l]; [reflexivity|]. by apply H3.
Qed.

(** While [apiConfig] is an object of its own, it stays so and the object
    [DEFAULT_CONFIG] is never written. *)
Lemma updates_own l : forall m stored c,
  own m = Some c ->
  (exists c', own (updates l (m, stored)).1 = Some c') /\
  defaults_now (updates l (m, stored)).1 = defaults_now m.
Proof.
  induction l as [|p l IH]; intros m stored c Hown.
  - split; [by exists c | reflexivity].
  - assert (Eu : updates (p :: l) (m, stored)
                 = updates l ({| defaults_now := defaults_now m;
                                 own := Some (spread c p) |},
                              ConfigData (full (spread (defaults_now m) p)))).
    { unfold updates. cbn [fold_left]. unfold updateAPIConfig at 2.
      by rewrite Hown. }
    rewrite Eu.
    apply (IH {| defaults_now := defaults_now m; own := Some (spread c p) |}
              (ConfigData (full (spread (defaults_now m) p))) (spread c p) eq_refl).
Qed.

(** X22. On a page that was loaded with no window configuration and no
    stored entry that parses, [apiConfig] is the object [DEFAULT_CONFIG]
    itself. Every runtime update is then written into the defaults: after
    any number of updates the live configuration holds all of them, later
    ones over earlier ones, the stored entry is the whole live
    configuration, and loading the page again gives the live configuration
    back. *)
Theorem updates_accumulate_in_defaults (l : list PartialConfig) (stored0 : StoredConfig) :
  stored0 = NoConfig \/ stored0 = UnparseableConfig ->
  let after := updates l (load None stored0, stored0) in
  own after.1 = None /\
  defaults_now after.1 = fold_left spread l DEFAULT_CONFIG /\
  apiConfig_of after.1 = fold_left spread l DEFAULT_CONFIG /\
  (l <> [] ->
     after.2 = ConfigData (full (apiConfig_of after.1)) /\
     getConfig None after.2 = apiConfig_of after.1).
Proof.
  intros H0. cbv zeta.
  assert (Hown : own (load None stored0) = None) by (by destruct H0 as [-> | ->]).
  destruct (updates_shared l (load None stored0) stored0 Hown) as (H1 & H2 & H3).
  assert (Hd : defaults_now (load None stored0) = DEFAULT_CONFIG) by reflexivity.
  rewrite Hd in H2.
  assert (Ha : apiConfig_of (updates l (load None stored0, stored0)).1
               = fold_left spread l DEFAULT_CONFIG).
  { unfold apiConfig_of. by rewrite H1, H2. }
  split; [exact H1|]. split; [exact H2|]. split; [exact Ha|].
  intros Hne. specialize (H3 Hne). rewrite H3, Ha, H2.
  split; [reflexivity|]. cbn [getConfig]. apply spread_full.
Qed.

Lemma updates_accumulate_in_defaults_witness :
  let after := setWSUrl "wss://live.example/ws"
                 (setAPIUrl "https://api.example/v1" (load None NoConfig, NoConfig)) in
  baseURL (apiConfig_of after.1) = "https://api.example/v1" /\
  wsURL (apiConfig_of after.1) = "wss://live.example/ws" /\
  baseURL (getConfig None after.2) = "https://api.example/v1" /\
  wsURL (getConfig None after.2) = "wss://live.example/ws" /\
  baseURL (defaults_now after.1) = "https://api.example/v1".
Proof.
  cbv zeta.
  destruct (updates_accumulate_in_defaults
              [ {| p_baseURL := Some "https://api.example/v1"; p_wsURL := None;
                   p_timeout := None; p_enableMockMode := None |};
                {| p_baseURL := None; p_wsURL := Some "wss://live.example/ws";
                   p_timeout := None; p_enableMockMode := None |} ]
              NoConfig (or_introl eq_refl)) as (_ & _ & Ha & Hs).
  cbv zeta in Ha, Hs. destruct Hs as [_ Hg]; [discriminate|].
  split; [exact (f_equal baseURL Ha)|]. split; [exact (f_equal wsURL Ha)|].
  split; [exact (f_equal baseURL (eq_trans Hg Ha))|].
  split; [exact (f_equal wsURL (eq_trans Hg Ha)) | reflexivity].
Defined.

(** X23. On a page that was loaded from a window configuration or from a
    stored entry that parses, [apiConfig] is an object of its own and the
    object [DEFAULT_CONFIG] is never written. The live configuration holds
    every update, but each update stores the defaults overridden by that
    update alone: after any number of updates, loading the page again
    without a window configuration gives the defaults overridden by the last
    update, and what the load or an earlier update had set and the last one
    did not is back at its default. *)
Theorem own_config_stores_last_update_only (windowConfig : option PartialConfig)
    (stored0 : StoredConfig) (l : list PartialConfig) (p : PartialConfig) :
  windowConfig <> None \/ (exists parsed, stored0 = ConfigData parsed) ->
  let before := updates l (load windowConfig stored0, stored0) in
  let after := updates (l ++ [p]) (load windowConfig stored0, stored0) in
  apiConfig_of after.1 = spread (apiConfig_of before.1) p /\
  defaults_now after.1 = DEFAULT_CONFIG /\
  after.2 = ConfigData (full (spread DEFAULT_CONFIG p)) /\
  getConfig None after.2 = spread DEFAULT_CONFIG p /\
  (p_baseURL p = None -> baseURL (getConfig None after.2) = "http://localhost:3001/api") /\
  (p_wsURL p = None -> wsURL (getConfig None after.2) = "ws://localhost:3001/ws") /\
  (p_enableMockMode p = None -> enableMockMode (getConfig None after.2) = true).
Proof.
  intros H0. cbv zeta.
  assert (Hown : exists c, own (load windowConfig stored0) = Some c).
  { destruct windowConfig as [w|]; [by eexists|].
    destruct H0 as [H0 | [parsed ->]]; [done | by eexists]. }
  destruct Hown as [c Hown].
  destruct (updates_own l _ stored0 c Hown) as ([c' Hc'] & Hd).
  rewrite updates_snoc.
  destruct (updates l (load windowConfig stored0, stored0)) as [m st] eqn:E.
  cbn [fst snd] in Hc', Hd.
  unfold updateAPIConfig. rewrite Hc'. cbn [fst snd defaults_now own apiConfig_of].
  unfold apiConfig_of. rewrite Hc'. rewrite Hd. cbn [load defaults_now default].
  cbn [getConfig]. rewrite spread_full.
  split; [reflexivity|]. split; [reflexivity|]. split; [reflexivity|].
  split; [reflexivity|]. unfold spread. cbn [baseURL wsURL enableMockMode].
  split; [by intros ->|]. split; by intros ->.
Qed.

Lemma own_config_stores_last_update_only_witness :
  let stored0 := ConfigData {| p_baseURL := Some "https://api.example/v1";
                               p_wsURL := None; p_timeout := None;
                               p_enableMockMode := None |} in
  let after := enableRealAPI (load None stored0, stored0) in
  baseURL (apiConfig_of after.1) = "https://api.example/v1" /\
  enableMockMode (apiConfig_of after.1) = false /\
  baseURL (getConfig None after.2) = "http://localhost:3001/api" /\
  enableMockMode (getConfig None after.2) = false.
Proof.
  cbv zeta.
  destruct (own_config_stores_last_update_only None
              (ConfigData {| p_baseURL := Some "https://api.example/v1";
                             p_wsURL := None; p_timeout := None;
                             p_enableMockMode := None |})
              []
              {| p_baseURL := None; p_wsURL := None; p_timeout := None;
                 p_enableMockMode := Some false |})
    as (_ & _ & _ & Hg & Hb & _).
  { right. by eexists. }
  cbv zeta in Hg, Hb.
  split; [reflexivity|]. split; [reflexivity|].
  split; [exact (Hb eq_refl) | exact (f_equal enableMockMode Hg)].
Defined.

(** X24. The socket wrapper reads the configuration each time it connects.
    So after [setWSUrl(u)] a reconnection that was scheduled before the
    change opens its socket at [u + "?token=" + token], not at the URL of
    the socket that was lost; nothing is surfaced as an error and the timer
    is gone. *)
Theorem reconnection_uses_current_wsURL env (m : Loaded) stored
    (t : BusTrackingWebSocket) k d u :
  timers t !! k = Some d ->
  url_accepted env (u +:+ "?token=" +:+ interpolate (getAuthToken env)) = true ->
  let env' := {| apiConfig := apiConfig_of (setWSUrl u (m, stored)).1;
                 localStorage := localStorage env;
                 url_accepted := url_accepted env |} in
  exists t',
    deliver env' t (EvTimeout k) = Some (t', [ConsoleLog "Attempting to reconnect..."]) /\
    ws t' = Some (length (sockets t)) /\
    sockets t'
    = sockets t ++ [new_WebSocket (u +:+ "?token=" +:+ interpolate (getAuthToken env))] /\
    timers t' = delete k (timers t) /\
    reconnectAttempts t' = reconnectAttempts t.
Proof.
  intros Hk Hacc. cbv zeta.
  set (env' := {| apiConfig := apiConfig_of (setWSUrl u (m, stored)).1;
                  localStorage := localStorage env;
                  url_accepted := url_accepted env |}).
  assert (Hu : wsURL (apiConfig env') = u).
  { unfold env', setWSUrl, updateAPIConfig. cbn [apiConfig fst].
    by destruct (own m). }
  assert (Ht : getAuthToken env' = getAuthToken env) by reflexivity.
  assert (Ha : url_accepted env' = url_accepted env) by reflexivity.
  clearbody env'.
  eexists. split.
  - unfold deliver. rewrite Hk. unfold timer_callback, connect.
    rewrite Hu, Ht, Ha, Hacc. reflexivity.
  - by repeat split.
Qed.

Lemma reconnection_uses_current_wsURL_witness :
  let t := {| ws := Some 0%nat; reconnectAttempts := 1;
              sockets := [ {| url := "ws://localhost:3001/ws?token=null";
                              readyState := CLOSED; sent := [] |} ];
              timers := [1000%Z] |} in
  exists t',
    deliver {| apiConfig := apiConfig_of (setWSUrl "wss://live.example/ws"
                                            (load None NoConfig, NoConfig)).1;
               localStorage := ∅; url_accepted := fun _ => true |}
      t (EvTimeout 0)
    = Some (t', [ConsoleLog "Attempting to reconnect..."]) /\
    sockets t' !! 1%nat = Some (new_WebSocket "wss://live.example/ws?token=null").
Proof.
  cbv zeta.
  destruct (reconnection_uses_current_wsURL (env_with ∅) (load None NoConfig) NoConfig
              {| ws := Some 0%nat; reconnectAttempts := 1;
                 sockets := [ {| url := "ws://localhost:3001/ws?token=null";
                                 readyState := CLOSED; sent := [] |} ];
                 timers := [1000%Z] |}
              0%nat 1000%Z "wss://live.example/ws" eq_refl eq_refl)
    as (t' & H1 & _ & H2 & _).
  exists t'. split; [exact H1|]. rewrite H2. reflexivity.
Defined.

End ConfigFacts.

(* ===================================================================== *)
(** ** Properties of the application shell *)
(* ===================================================================== *)

Module AppFacts.
Import Api Services App.

Lemma mock_token_truthy now :
  truthy (Some ("mock-jwt-token-" +:+ number_toString now)) = true.
Proof. reflexivity. Qed.

Lemma truthy_Some t : truthy t = true -> t <> None.
Proof. by destruct t. Qed.

Lemma mounted_consistent storedToken storedUser :
  consistent (mounted storedToken storedUser).
Proof.
  unfold mounted, mount_effect. cbn [stored_token stored_user initial].
  destruct (truthy storedToken) eqn:Ht.
  - apply truthy_Some in Ht.
    destruct storedUser as [|msg|u|v e].
    + unfold consistent; simpl. six; try done. by left.
    + unfold consistent; simpl. six; try done. by left.
    + unfold consistent; simpl. six; try done.
      * intros u' H. by injection H as <-.
      * by left.
    + destruct (read_favoriteRoutes v) as [[favorites|]|property];
        unfold consistent; simpl; (six; try done; try by left);
        unfold user_cell; intros u H; by destruct (value_truthy v).
  - unfold consistent; simpl. six; try done. by left.
Qed.

Lemma auth_succeeds_consistent mockUser now a :
  consistent a -> consistent (auth_succeeds mockUser now a).
Proof.
  intros (_ & _ & _ & Hb & Hs & Hx).
  unfold consistent; simpl. six; try done.
  intros u H. by injection H as <-.
Qed.

Lemma handleLogout_consistent a : consistent (handleLogout a).
Proof. unfold consistent; simpl. six; try done. by left. Qed.

(** Cells that only the selection, the drawer, the dialog, the messages,
    the log or the storage differ in. *)
Lemma consistent_same_session a a' :
  isAuthenticated a' = isAuthenticated a -> user a' = user a -> token a' = token a ->
  userFavorites a' = userFavorites a -> selectedBus a' = selectedBus a ->
  selectedStop a' = selectedStop a -> activePanel a' = activePanel a ->
  consistent a -> consistent a'.
Proof.
  intros E1 E2 E3 E4 E5 E6 E7. unfold consistent.
  by rewrite E1, E2, E3, E4, E5, E6, E7.
Qed.

Lemma toggle_consistent id a : consistent a -> consistent (handleToggleFavorite id a).
Proof.
  intros H. unfold handleToggleFavorite.
  destruct (favorite_call id a) as [s'|e].
  - destruct H as (Ht & Hu & Hf & Hb & Hs & Hx).
    destruct (user a) as [uv|] eqn:Eu.
    + assert (Hauth : isAuthenticated a = true) by by apply Hu.
      destruct (cell_truthy (Some uv)) eqn:Ec.
      * unfold consistent; simpl. six; try done.
        intros u H. injection H as H. destruct uv as [u0|v]; simpl in H.
        -- by injection H as <-.
        -- by destruct v as [| |nm [pp|]].
      * unfold consistent; simpl. rewrite Eu. six; try done.
        intros u H. injection H as ->. discriminate Ec.
    + unfold consistent; simpl. rewrite Eu. by six.
  - destruct (handleAPIError_full e) as [msg [|]];
      (eapply consistent_same_session; [..|exact H]; reflexivity).
Qed.

Lemma step_consistent a ev : consistent a -> consistent (step a ev).
Proof.
  intros H. destruct ev; cbn [step];
    try (by apply auth_succeeds_consistent);
    try (by apply handleLogout_consistent);
    try (by apply toggle_consistent);
    try (eapply consistent_same_session; [..|exact H]; reflexivity).
  - destruct H as (Ht & Hu & Hf & Hb & Hs & Hx).
    unfold handleBusSelect. destruct isMobile;
      unfold consistent; simpl; (six; try done; by right).
  - destruct H as (Ht & Hu & Hf & Hb & Hs & Hx).
    unfold handleStopSelect. destruct isMobile;
      unfold consistent; simpl; (six; try done; by left).
  - destruct H as (Ht & Hu & Hf & Hb & Hs & Hx).
    unfold consistent; simpl. by six.
  - destruct H as (Ht & Hu & Hf & Hb & Hs & Hx).
    unfold consistent; simpl. six; try done. by left.
Qed.

Lemma run_consistent l : forall a, consistent a -> consistent (run l a).
Proof.
  unfold run. induction l as [|ev l IH]; intros a H; [exact H|].
  simpl. apply IH. by apply step_consistent.
Qed.

(** *** The shell and the storage *)

Lemma mounted_in_step storedToken storedUser :
  truthy storedToken = false \/ (forall v e, storedUser <> OtherValue v e) ->
  in_step_with_storage (mounted storedToken storedUser).
Proof.
  intros Hyp. unfold mounted, mount_effect. cbn [stored_token stored_user initial].
  destruct (truthy storedToken) eqn:Ht.
  - destruct Hyp as [Hyp|Hyp]; [discriminate Hyp|].
    destruct storedUser as [|msg|u|v e].
    + unfold in_step_with_storage; simpl. split; [done|]. split; [done|]. by right.
    + unfold in_step_with_storage; simpl. split; [done|]. split; [done|]. by right.
    + unfold in_step_with_storage; simpl. split; [done|]. split; [|done].
      intros uv H. injection H as <-. by exists u.
    + by destruct (Hyp v e).
  - unfold in_step_with_storage; simpl. split; [done|]. split; [done|]. by left.
Qed.

Lemma auth_succeeds_in_step mockUser now a :
  in_step_with_storage (auth_succeeds mockUser now a).
Proof.
  unfold in_step_with_storage; simpl. split; [done|]. split; [|done].
  intros uv H. injection H as <-. by exists mockUser.
Qed.

Lemma handleLogout_in_step a : in_step_with_storage (handleLogout a).
Proof.
  unfold in_step_with_storage; simpl. split; [done|]. split; [done|]. by left.
Qed.

Lemma in_step_same_session a a' :
  isAuthenticated a' = isAuthenticated a -> user a' = user a -> token a' = token a ->
  stored_token a' = stored_token a -> stored_user a' = stored_user a ->
  in_step_with_storage a -> in_step_with_storage a'.
Proof.
  intros E1 E2 E3 E4 E5. unfold in_step_with_storage.
  by rewrite E1, E2, E3, E4, E5.
Qed.

Lemma toggle_in_step id a :
  consistent a -> in_step_with_storage a ->
  in_step_with_storage (handleToggleFavorite id a).
Proof.
  intros (Ht & Hu & Hf & _) (Ha & Hsync & Hout).
  unfold handleToggleFavorite, favorite_call.
  destruct (user a) as [uv|] eqn:Eu.
  - destruct (Hsync uv eq_refl) as (u & -> & Hst & Htok & Htr).
    specialize (Hf u eq_refl).
    assert (Hauth : isAuthenticated a = true) by by apply Hu.
    rewrite Hst, <- Hf. cbn [cell_truthy].
    destruct (Array_includes id (favoriteRoutes (preferences u))) eqn:Ei.
    + cbn [removeFavorite]. unfold in_step_with_storage; simpl.
      split; [done|]. split; [|by rewrite Hauth].
      intros uv H. injection H as <-. eexists. by repeat split.
    + unfold addFavorite. rewrite Ei. cbn [negb].
      unfold in_step_with_storage; simpl.
      split; [done|]. split; [|by rewrite Hauth].
      intros uv H. injection H as <-. eexists. by repeat split.
  - assert (Hna : isAuthenticated a = false).
    { destruct (isAuthenticated a); [|done]. by exfalso; apply Ha. }
    specialize (Hout Hna).
    assert (Hgen : forall r : Settled StoredUser,
               (forall s', r = Fulfilled s' -> stored_user a = NoUser -> s' = NoUser) ->
               in_step_with_storage
                 match r with
                 | Fulfilled stored' =>
                     toast (MapComponent.toast_success
                              (if Array_includes id (userFavorites a)
                               then "Removed from favorites" else "Added to favorites"))
                       (setUserFavorites
                          (if Array_includes id (userFavorites a)
                           then List.filter (fun fav => negb (String.eqb fav id))
                                  (userFavorites a)
                           else userFavorites a ++ [id])
                          (store (stored_token a) stored' a))
                 | Threw error =>
                     let '(errorMessage, removed) := handleAPIError_full error in
                     console_error "Favorite toggle error:"
                       (toast (MapComponent.toast_error
                                 ("Failed to update favorites: " +:+ errorMessage))
                          (if removed then store None NoUser a else a))
                 end).
    { intros [s'|e] Hr.
      - unfold in_step_with_storage; simpl. rewrite Eu, Hna.
        split; [done|]. split; [done|].
        intros _. destruct Hout as [H|H]; [by left|]. right. by apply (Hr s').
      - destruct (handleAPIError_full e) as [msg [|]].
        + unfold in_step_with_storage; simpl. rewrite Eu, Hna.
          split; [done|]. split; [done|]. by left.
        + unfold in_step_with_storage; simpl. rewrite Eu, Hna.
          split; [done|]. split; [done|]. by intros _. }
    destruct (Array_includes id (userFavorites a)).
    + apply (Hgen (removeFavorite id (stored_user a))).
      intros s' Hr Hn. rewrite Hn in Hr. by injection Hr as <-.
    + apply (Hgen (addFavorite id (stored_user a))).
      intros s' Hr Hn. rewrite Hn in Hr. by injection Hr as <-.
Qed.

Lemma step_in_step a ev :
  ev <> SessionRemoved -> consistent a -> in_step_with_storage a ->
  in_step_with_storage (step a ev).
Proof.
  intros Hev Hc H. destruct ev; cbn [step];
    try (by apply auth_succeeds_in_step);
    try (by apply handleLogout_in_step);
    try (by apply toggle_in_step);
    try (eapply in_step_same_session; [..|exact H]; reflexivity).
  - unfold handleBusSelect. destruct isMobile;
      (eapply in_step_same_session; [..|exact H]; reflexivity).
  - unfold handleStopSelect. destruct isMobile;
      (eapply in_step_same_session; [..|exact H]; reflexivity).
  - done.
Qed.

Lemma run_in_step l : forall a,
  undisturbed l -> consistent a -> in_step_with_storage a ->
  in_step_with_storage (run l a).
Proof.
  unfold run, undisturbed. induction l as [|ev l IH]; intros a Hl Hc H; [exact H|].
  apply Forall_cons in Hl as [Hev Hl]. simpl. apply IH; [exact Hl| |].
  - by apply step_consistent.
  - by apply step_in_step.
Qed.

(** X25. In every state the shell can reach, whatever the two stored
    entries hold when the page is loaded (a stored user entry that is
    absent, that does not parse, that is a user, or that is another value)
    and whatever happens afterwards (the session entries being removed from
    under the shell included): it is authenticated exactly when it holds a
    token; it holds a user only while authenticated; while it holds a
    well-formed user, the favourites shown are that user's; the bus panel is
    shown only with a bus selected and no stop, the stop panel only with a
    stop selected and no bus, and never are both selected. *)
Theorem shell_invariants storedToken storedUser l :
  let a := run l (mounted storedToken storedUser) in
  (isAuthenticated a = true <-> token a <> None) /\
  (user a <> None -> isAuthenticated a = true) /\
  (forall u, user a = Some (AUser u) ->
     favoriteRoutes (preferences u) = userFavorites a) /\
  (activePanel a = bus -> selectedBus a <> None /\ selectedStop a = None) /\
  (activePanel a = stop -> selectedStop a <> None /\ selectedBus a = None) /\
  (selectedBus a = None \/ selectedStop a = None).
Proof.
  cbv zeta.
  destruct (run_consistent l _ (mounted_consistent storedToken storedUser))
    as (Ht & Hu & Hf & Hb & Hs & Hx).
  six; try done.
  - intros H. split; [by apply Hb|]. destruct Hx as [Hx|Hx]; [|exact Hx].
    exfalso. by apply (Hb H).
  - intros H. split; [by apply Hs|]. destruct Hx as [Hx|Hx]; [exact Hx|].
    exfalso. by apply (Hs H).
Qed.

(** A stored user entry that holds [{}]: the page comes up authenticated,
    holding the token and that object as its user, with the two entries
    removed; selecting a stop and then a bus leaves the bus panel with no
    stop selected. *)
Lemma shell_invariants_witness :
  let a := run [StopSelect false sample_stop;
                BusSelect true (MapComponent.sample_bus "1")]
             (mounted (Some "mock-jwt-token-1")
                (OtherValue (object None None) (fun property => property))) in
  isAuthenticated a = true /\ token a = Some "mock-jwt-token-1" /\
  user a = Some (AValue (object None None)) /\
  stored_token a = None /\ stored_user a = NoUser /\
  activePanel a = bus /\ selectedStop a = None.
Proof.
  cbv zeta.
  destruct (shell_invariants (Some "mock-jwt-token-1")
              (OtherValue (object None None) (fun property => property))
              [StopSelect false sample_stop;
               BusSelect true (MapComponent.sample_bus "1")])
    as (_ & _ & _ & Hb & _).
  split; [reflexivity|]. split; [reflexivity|]. split; [reflexivity|].
  split; [reflexivity|]. split; [reflexivity|]. split; [reflexivity|].
  apply (Hb eq_refl).
Defined.

(** X26. As long as the mount effect has not met a stored user entry that
    is neither absent, nor unparseable, nor a user, and the session entries
    have not been removed from under the shell, loading the page again over
    what the shell has stored gives back the session: the same user, token
    and authentication state. The favourites are kept if the shell was
    authenticated; favourites chosen while not authenticated are gone after
    the reload. Once the session entries are removed from under the shell
    (an error text with [401] met in a component below it), the shell goes
    on with the session it holds, and loading the page again gives no
    session. *)
Theorem reload_restores_session storedToken storedUser l :
  truthy storedToken = false \/ (forall v e, storedUser <> OtherValue v e) ->
  undisturbed l ->
  let a := run l (mounted storedToken storedUser) in
  isAuthenticated (reload a) = isAuthenticated a /\
  user (reload a) = user a /\
  token (reload a) = token a /\
  (isAuthenticated a = true -> userFavorites (reload a) = userFavorites a) /\
  (isAuthenticated a = false -> userFavorites (reload a) = []) /\
  let a' := step a SessionRemoved in
  isAuthenticated a' = isAuthenticated a /\ user a' = user a /\
  token a' = token a /\ userFavorites a' = userFavorites a /\
  isAuthenticated (reload a') = false /\ user (reload a') = None /\
  token (reload a') = None /\ userFavorites (reload a') = [].
Proof.
  intros Hyp Hl. cbv zeta.
  pose proof (run_consistent l _ (mounted_consistent storedToken storedUser)) as Hc.
  pose proof (run_in_step l _ Hl (mounted_consistent storedToken storedUser)
                (mounted_in_step _ _ Hyp)) as (Ha & Hsync & Hout).
  destruct Hc as (Ht & Hu & Hf & _).
  set (a := run l (mounted storedToken storedUser)) in *.
  assert (Hreload :
    isAuthenticated (reload a) = isAuthenticated a /\
    user (reload a) = user a /\
    token (reload a) = token a /\
    (isAuthenticated a = true -> userFavorites (reload a) = userFavorites a) /\
    (isAuthenticated a = false -> userFavorites (reload a) = [])).
  { unfold reload, mounted, mount_effect. cbn [stored_token stored_user initial].
    destruct (isAuthenticated a) eqn:Hauth.
    - destruct (user a) as [uv|] eqn:Eu; [|exfalso; by apply Ha].
      destruct (Hsync uv eq_refl) as (u & -> & Hst & Htok & Htr).
      specialize (Hf u eq_refl).
      rewrite Hst, Htok, Htr. simpl. by repeat split.
    - assert (Hnu : user a = None).
      { destruct (user a); [|done]. by discriminate Hu. }
      assert (Hnt : token a = None).
      { destruct (token a); [|done]. destruct Ht as [_ Ht]. by discriminate Ht. }
      rewrite Hnu, Hnt.
      destruct (Hout eq_refl) as [H|H].
      + rewrite H. simpl. by repeat split.
      + rewrite H. destruct (truthy (stored_token a)); simpl; by repeat split. }
  destruct Hreload as (H1 & H2 & H3 & H4 & H5).
  split; [exact H1|]. split; [exact H2|]. split; [exact H3|].
  split; [exact H4|]. split; [exact H5|].
  by repeat split.
Qed.

Lemma reload_restores_session_witness :
  let a := run [ToggleFavorite "23"] (mounted (Some "mock-jwt-token-1") (UserData login_user)) in
  userFavorites (reload a) = ["42"; "15"; "23"] /\
  user (reload a) = user a /\
  isAuthenticated (step a SessionRemoved) = true /\
  isAuthenticated (reload (step a SessionRemoved)) = false.
Proof.
  cbv zeta.
  assert (Hyp : truthy (Some "mock-jwt-token-1") = false \/
                (forall v e, UserData login_user <> OtherValue v e)).
  { right. intros v e. discriminate. }
  assert (Hl : undisturbed [ToggleFavorite "23"]).
  { apply Forall_cons. split; [discriminate|]. apply Forall_nil_2. }
  destruct (reload_restores_session (Some "mock-jwt-token-1") (UserData login_user)
              [ToggleFavorite "23"] Hyp Hl)
    as (_ & Hu & _ & Hf & _ & Hr).
  split; [etransitivity; [apply (Hf eq_refl)|reflexivity]|].
  split; [exact Hu|].
  destruct Hr as (Ha & _ & _ & _ & Hra & _).
  split; [etransitivity; [exact Ha|reflexivity]|exact Hra].
Defined.

(** X27. Toggling a favourite follows the call of [userAPI] it awaits
    (the removal if the id is among the favourites shown, else the
    addition). If the call is fulfilled, whether that id is among the
    favourites shown is flipped and every other id is as it was, exactly one
    success message is shown, the stored user entry is the one the call
    leaves, and the stored token is untouched. If the call throws, the
    favourites shown and the user held are as they were, exactly one error
    message is shown, with the text [handleAPIError] gives, and the session
    entries are removed exactly when that text is the one for [401]. The
    call is fulfilled when the stored entry is absent or is a user; it
    throws when the entry does not parse, and when it parses to [null] or to
    a value without [preferences]. *)
Theorem toggle_follows_api id a :
  let a' := handleToggleFavorite id a in
  (forall s', favorite_call id a = Fulfilled s' ->
     (In id (userFavorites a') <-> ~ In id (userFavorites a)) /\
     (forall x, x <> id -> (In x (userFavorites a') <-> In x (userFavorites a))) /\
     toasts a' = toasts a ++
       [MapComponent.toast_success
          (if Array_includes id (userFavorites a)
           then "Removed from favorites" else "Added to favorites")] /\
     stored_user a' = s' /\ stored_token a' = stored_token a) /\
  (forall e, favorite_call id a = Threw e ->
     userFavorites a' = userFavorites a /\ user a' = user a /\
     toasts a' = toasts a ++
       [MapComponent.toast_error
          ("Failed to update favorites: " +:+ (handleAPIError_full e).1)] /\
     (if (handleAPIError_full e).2
      then stored_token a' = None /\ stored_user a' = NoUser
      else stored_token a' = stored_token a /\ stored_user a' = stored_user a)) /\
  (stored_user a = NoUser \/ (exists u, stored_user a = UserData u) ->
     exists s', favorite_call id a = Fulfilled s') /\
  (forall message, stored_user a = Unparseable message ->
     favorite_call id a = Threw (SyntaxError message)) /\
  (forall typeError, stored_user a = OtherValue JSON_null typeError ->
     favorite_call id a = Threw (TypeError (typeError "preferences"))) /\
  (forall v typeError,
     stored_user a = OtherValue v typeError ->
     (exists name, v = object name None) \/ (exists b, v = primitive b) ->
     favorite_call id a = Threw (TypeError (typeError "favoriteRoutes"))).
Proof.
  cbv zeta. split; [|split; [|split; [|split; [|split]]]].
  - intros s' Hr. unfold handleToggleFavorite. rewrite Hr.
    assert (Hflip :
      let updated :=
        if Array_includes id (userFavorites a)
        then List.filter (fun fav => negb (String.eqb fav id)) (userFavorites a)
        else userFavorites a ++ [id] in
      (In id updated <-> ~ In id (userFavorites a)) /\
      (forall x, x <> id -> (In x updated <-> In x (userFavorites a)))).
    { cbv zeta. destruct (Array_includes id (userFavorites a)) eqn:Ei.
      - apply ServicesFacts.Array_includes_In in Ei. split.
        + rewrite ServicesFacts.filter_ne_In. tauto.
        + intros x Hx. rewrite ServicesFacts.filter_ne_In. tauto.
      - assert (Hn : ~ In id (userFavorites a)).
        { intros H. apply ServicesFacts.Array_includes_In in H. congruence. }
        split.
        + split; [done|]. intros _. apply in_or_app. right. by left.
        + intros x Hx. rewrite in_app_iff. simpl. split; [|tauto].
          intros [H|[H|[]]]; [exact H|]. by subst. }
    destruct Hflip as [H1 H2].
    destruct (user a) as [uv|]; [destruct (cell_truthy (Some uv))|]; simpl;
      (split; [exact H1|]; split; [exact H2|]; done).
  - intros e Hr. unfold handleToggleFavorite. rewrite Hr.
    destruct (handleAPIError_full e) as [msg [|]]; simpl; by repeat split.
  - unfold favorite_call. intros [-> | [u ->]];
      destruct (Array_includes id (userFavorites a)); simpl; eauto.
    unfold addFavorite. destruct (negb _); eauto.
  - unfold favorite_call. intros message ->.
    by destruct (Array_includes id (userFavorites a)).
  - unfold favorite_call. intros typeError ->.
    by destruct (Array_includes id (userFavorites a)).
  - unfold favorite_call. intros v typeError -> [[name ->] | [b ->]];
      by destruct (Array_includes id (userFavorites a)).
Qed.

Lemma toggle_follows_api_witness :
  let a := mounted (Some "mock-jwt-token-1") (UserData login_user) in
  userFavorites (handleToggleFavorite "42" a) = ["15"] /\
  (exists s', favorite_call "42" a = Fulfilled s' /\
              stored_user (handleToggleFavorite "42" a) = s') /\
  let b := mounted None (Unparseable "Unexpected token") in
  toasts (handleToggleFavorite "42" b)
  = [MapComponent.toast_error "Failed to update favorites: Unexpected token"].
Proof.
  cbv zeta.
  destruct (toggle_follows_api "42" (mounted (Some "mock-jwt-token-1") (UserData login_user)))
    as (Hok & _ & Hex & _).
  destruct (toggle_follows_api "42" (mounted None (Unparseable "Unexpected token")))
    as (_ & Hthrow & _ & Hun & _).
  split; [reflexivity|]. split.
  - destruct Hex as [s' Hs']; [right; by eexists|].
    exists s'. split; [exact Hs'|]. by destruct (Hok s' Hs') as (_ & _ & _ & H & _).
  - destruct (Hthrow _ (Hun _ eq_refl)) as (_ & _ & H & _).
    etransitivity; [exact H|]. reflexivity.
Defined.

End AppFacts.
